(** * CryptoAlert: the alert evaluation and notification pipeline

    A shallow embedding of
      - the Alert model, backend/src/models/Alert.js (the document and its
        methods [shouldTrigger], [trigger], [pause], [resume],
        [addPriceHistory]),
      - class AlertService, the monitor (in the sources under
        backend/src/services/cryptoService.js, from [const Alert = require]
        on),
      - class NotificationService (under backend/src/services/priceMonitor.js,
        from [const sgMail = require] on), with the Redis helpers [getCache]
        and [setCache] of config/database,
      - of class CryptoService, the client of the price API (at the head of
        backend/src/services/cryptoService.js), the request counter
        [checkRateLimit] and the cached request [getCurrentPrices],
    followed by the properties of the pipeline.

    Conventions of the embedding.
      - A JavaScript Number that is only compared, passed to [Math.abs] or
        tested for truthiness is a [JsVal]: [undefined] (the field is
        absent), [null], [NaN] or a finite value, kept as a rational (every
        finite double is one, and [<=], [>=] and [Math.abs] on doubles are
        exact).  Infinities are not represented.
      - The trigger budget [maxTriggers] is such a finite value, whole or
        not, as the schema accepts any Number from 1 on.  The trigger count
        is a whole number below 2^53, as the schema default 0 and the
        increments of [trigger] make it; minutes ([repeatInterval]) and
        instants ([Date.now()], [Date] fields, in milliseconds) are
        integers.
      - Mongoose documents are objects shared by reference: the monitor's
        Map, the snapshot taken by [processAlerts] and the closures of
        [setTimeout] all point to the same document.  Documents therefore live
        in a heap ([docs]) and are named by their location.
      - [alert.save()] runs the validators of the schema on the document
        and, when they pass, writes it to the store under its [_id]; it
        rejects otherwise.  A stored alert stays in the store while one of
        its documents is in use, and the connection to the store is up.
        The fields of a document that are not kept here ([name], the
        description, the tags) are taken to be valid.
      - An [async] function is run to completion at its call, the counter
        update that [sendEmail] and its siblings start without awaiting
        included; a function that can reject returns a [Completion].  All
        calls of [Date.now()] within one activity of the monitor return the
        same instant.
      - A promise that rejects with nobody awaiting it (the [save] of a
        reset timer) reaches the [unhandledRejection] handler of server.js,
        which logs it and closes the server; the process exits once the
        server has closed.  A run goes on past such a rejection as if the
        server stayed up: the activities of the monitor are a prefix of
        it. *)

From Stdlib Require Import QArith Qabs Ascii Lqa.
From stdpp Require Import gmap strings list fin_maps.

Local Open Scope string_scope.
Local Open Scope list_scope.
Local Open Scope Z_scope.

(** ** JavaScript values met by the evaluator *)

Inductive JsVal : Type :=
  | undefined
  | null
  | NaN
  | num (q : Q).

(** ECMAScript [ToNumber]: [undefined] becomes [NaN], [null] becomes 0. *)
Definition ToNumber (v : JsVal) : option Q :=
  match v with
  | undefined => None
  | null => Some 0%Q
  | NaN => None
  | num q => Some q
  end.

(** [a >= b]: false as soon as one side is [NaN]. *)
Definition js_ge (a b : JsVal) : bool :=
  match ToNumber a, ToNumber b with
  | Some x, Some y => Qle_bool y x
  | _, _ => false
  end.

(** [a <= b]. *)
Definition js_le (a b : JsVal) : bool :=
  match ToNumber a, ToNumber b with
  | Some x, Some y => Qle_bool x y
  | _, _ => false
  end.

Definition Math_abs (v : JsVal) : JsVal :=
  match ToNumber v with
  | Some q => num (Qabs q)
  | None => NaN
  end.

(** Truthiness of a value used as a condition. *)
Definition truthy (v : JsVal) : bool :=
  match v with
  | num q => negb (Qeq_bool q 0)
  | _ => false
  end.

(** [a || b]. *)
Definition js_or (a b : JsVal) : JsVal := if truthy a then a else b.

(** ** The Alert document *)

Record Condition : Type := mkCondition {
  targetPrice : JsVal;
  currentPrice : JsVal;
  percentageChange : JsVal;
  timeframe : string;
  volumeThreshold : JsVal;
  marketCapThreshold : JsVal
}.

Record Channel : Type := mkChannel {
  enabled : bool;
  sent : bool;
  sentAt : option Z
}.

Record Notifications : Type := mkNotifications {
  email : Channel;
  sms : Channel;
  push : Channel
}.

Record Metadata : Type := mkMetadata {
  priority : string;
  repeatInterval : Z;
  maxTriggers : Q;
  expiresAt : option Z
}.

Record PriceEntry : Type := mkPriceEntry {
  entry_price : JsVal;
  entry_timestamp : Z;
  entry_source : string
}.

(** One cache entry of the monitor, the [currentData] of the evaluator. *)
Record PriceData : Type := mkPriceData {
  price : JsVal;
  change24h : JsVal;
  volume : JsVal;
  marketCap : JsVal;
  lastUpdated : Z
}.

Record LogEntry : Type := mkLogEntry {
  action : string;
  log_timestamp : Z;
  triggerData : option PriceData;
  log_triggerCount : option Z
}.

(** The populated [userId] of an alert (the fields the monitor reads). *)
Record UserPrefs : Type := mkUserPrefs {
  pref_email : bool;
  pref_sms : bool;
  pref_push : bool
}.

Record User : Type := mkUser {
  user_id : string;
  user_email : string;
  phoneNumber : option string;
  preferences : UserPrefs
}.

Record Alert : Type := mkAlert {
  _id : string;
  userId : option User;
  symbol : string;
  type : string;
  condition : Condition;
  isActive : bool;
  isTriggered : bool;
  triggerCount : Z;
  lastTriggered : option Z;
  notifications : Notifications;
  metadata : Metadata;
  priceHistory : list PriceEntry;
  executionLog : list LogEntry
}.

(** [this.metadata.expiresAt && this.metadata.expiresAt < Date.now()] *)
Definition expired (a : Alert) (now : Z) : bool :=
  match expiresAt (metadata a) with
  | Some e => e <? now
  | None => false
  end.

(** [alertSchema.methods.shouldTrigger]; [now] is the value of [Date.now()]. *)
Definition shouldTrigger (a : Alert) (now : Z) (currentData : PriceData) : bool :=
  if negb (isActive a) || isTriggered a then false
  else if expired a now then false
  else if Qle_bool (maxTriggers (metadata a)) (inject_Z (triggerCount a)) then false
  else if String.eqb (type a) "price_above" then
    js_ge (price currentData) (targetPrice (condition a))
  else if String.eqb (type a) "price_below" then
    js_le (price currentData) (targetPrice (condition a))
  else if String.eqb (type a) "price_change" then
    js_ge (Math_abs (change24h currentData))
          (Math_abs (percentageChange (condition a)))
  else if String.eqb (type a) "volume_spike" then
    js_ge (volume currentData) (volumeThreshold (condition a))
  else if String.eqb (type a) "market_cap_change" then
    js_ge (marketCap currentData) (marketCapThreshold (condition a))
  else false.

(** [Array.prototype.slice(-n)]: the last [n] elements. *)
Definition slice_last {A : Type} (n : nat) (l : list A) : list A :=
  drop (length l - n)%nat l.

(** [alertSchema.methods.addPriceHistory]; the pushed subdocument gets its
    [timestamp] default, [Date.now()]. *)
Definition addPriceHistory (now : Z) (p : JsVal) (source : string) (a : Alert) : Alert :=
  let pushed := priceHistory a ++ [mkPriceEntry p now source] in
  let kept := if (100 <? length pushed)%nat then slice_last 100 pushed else pushed in
  mkAlert (_id a) (userId a) (symbol a) (type a) (condition a) (isActive a)
          (isTriggered a) (triggerCount a) (lastTriggered a) (notifications a)
          (metadata a) kept (executionLog a).

(** Assignments to fields of the document. *)
Definition set_isTriggered (b : bool) (a : Alert) : Alert :=
  mkAlert (_id a) (userId a) (symbol a) (type a) (condition a) (isActive a)
          b (triggerCount a) (lastTriggered a) (notifications a)
          (metadata a) (priceHistory a) (executionLog a).

Definition set_triggerCount (n : Z) (a : Alert) : Alert :=
  mkAlert (_id a) (userId a) (symbol a) (type a) (condition a) (isActive a)
          (isTriggered a) n (lastTriggered a) (notifications a)
          (metadata a) (priceHistory a) (executionLog a).

Definition set_lastTriggered (t : Z) (a : Alert) : Alert :=
  mkAlert (_id a) (userId a) (symbol a) (type a) (condition a) (isActive a)
          (isTriggered a) (triggerCount a) (Some t) (notifications a)
          (metadata a) (priceHistory a) (executionLog a).

Definition set_currentPrice (p : JsVal) (a : Alert) : Alert :=
  let c := condition a in
  mkAlert (_id a) (userId a) (symbol a) (type a)
          (mkCondition (targetPrice c) p (percentageChange c) (timeframe c)
                       (volumeThreshold c) (marketCapThreshold c))
          (isActive a) (isTriggered a) (triggerCount a) (lastTriggered a)
          (notifications a) (metadata a) (priceHistory a) (executionLog a).

Definition push_executionLog (e : LogEntry) (a : Alert) : Alert :=
  mkAlert (_id a) (userId a) (symbol a) (type a) (condition a) (isActive a)
          (isTriggered a) (triggerCount a) (lastTriggered a) (notifications a)
          (metadata a) (priceHistory a) (executionLog a ++ [e]).

Definition set_notifications (n : Notifications) (a : Alert) : Alert :=
  mkAlert (_id a) (userId a) (symbol a) (type a) (condition a) (isActive a)
          (isTriggered a) (triggerCount a) (lastTriggered a) n
          (metadata a) (priceHistory a) (executionLog a).

Definition set__id (i : string) (a : Alert) : Alert :=
  mkAlert i (userId a) (symbol a) (type a) (condition a) (isActive a)
          (isTriggered a) (triggerCount a) (lastTriggered a) (notifications a)
          (metadata a) (priceHistory a) (executionLog a).

(** The validators of the schema, as [save] runs them on a document.  A
    [min] or [max] validator accepts an absent or [null] value; [NaN] cannot
    be cast to a Number path.  The [required] validator of [userId] looks at
    the stored reference, which is there also when no user was found for
    it. *)
Definition castable (v : JsVal) : bool :=
  match v with
  | NaN => false
  | _ => true
  end.

Definition min_max (lo : Q) (hi : option Q) (v : JsVal) : bool :=
  match v with
  | undefined | null => true
  | NaN => false
  | num q =>
      Qle_bool lo q && match hi with Some h => Qle_bool q h | None => true end
  end.

Definition type_enum : list string :=
  ["price_above"; "price_below"; "price_change"; "volume_spike"; "market_cap_change"].

Definition timeframe_enum : list string := ["1h"; "24h"; "7d"; "30d"].

Definition priority_enum : list string := ["low"; "medium"; "high"; "critical"].

Definition action_enum : list string :=
  ["created"; "triggered"; "email_sent"; "sms_sent"; "push_sent"; "paused"; "resumed";
   "deleted"].

Definition validate (a : Alert) : bool :=
  let c := condition a in
  let m := metadata a in
  negb (String.eqb (symbol a) "") &&
  bool_decide (type a ∈ type_enum) &&
  min_max 0 None (targetPrice c) &&
  min_max 0 None (currentPrice c) &&
  min_max (-100) (Some 1000%Q) (percentageChange c) &&
  bool_decide (timeframe c ∈ timeframe_enum) &&
  min_max 0 None (volumeThreshold c) &&
  min_max 0 None (marketCapThreshold c) &&
  bool_decide (priority m ∈ priority_enum) &&
  (0 <=? repeatInterval m) &&
  Qle_bool 1 (maxTriggers m) &&
  forallb (fun e => castable (entry_price e)) (priceHistory a) &&
  forallb (fun e => bool_decide (action e ∈ action_enum)) (executionLog a).

(** The three notification channels. *)
Inductive ChannelType : Type := Email | Sms | Push.

Global Instance ChannelType_eq_dec : EqDecision ChannelType.
Proof. solve_decision. Defined.

Definition channel_name (c : ChannelType) : string :=
  match c with
  | Email => "email"
  | Sms => "sms"
  | Push => "push"
  end.

(** [alert.notifications.<c>.sent = true; alert.notifications.<c>.sentAt = new Date()] *)
Definition mark_sent (c : ChannelType) (now : Z) (a : Alert) : Alert :=
  let n := notifications a in
  let stamp (ch : Channel) := mkChannel (enabled ch) true (Some now) in
  set_notifications
    match c with
    | Email => mkNotifications (stamp (email n)) (sms n) (push n)
    | Sms => mkNotifications (email n) (stamp (sms n)) (push n)
    | Push => mkNotifications (email n) (sms n) (stamp (push n))
    end a.

(** ** JavaScript [Map] with string keys: entries in insertion order *)

Section JsMap.
Context {V : Type}.

Fixpoint map_get (k : string) (m : list (string * V)) : option V :=
  match m with
  | [] => None
  | (k', v) :: m' => if String.eqb k' k then Some v else map_get k m'
  end.

(** [Map.prototype.set]: an existing key keeps its position. *)
Fixpoint map_set (k : string) (v : V) (m : list (string * V)) : list (string * V) :=
  match m with
  | [] => [(k, v)]
  | (k', v') :: m' =>
      if String.eqb k' k then (k, v) :: m' else (k', v') :: map_set k v m'
  end.

Fixpoint map_delete (k : string) (m : list (string * V)) : list (string * V) :=
  match m with
  | [] => []
  | (k', v') :: m' =>
      if String.eqb k' k then map_delete k m' else (k', v') :: map_delete k m'
  end.

(** [Array.from(m.values())] *)
Definition map_values (m : list (string * V)) : list V := snd <$> m.
End JsMap.

(** ** Completions, the world and the monad of the services *)

Inductive Completion (A : Type) : Type :=
  | Return (a : A)
  | Throw (message : string).
Arguments Return {A} a.
Arguments Throw {A} message.

(** The value kept under a [rate_limit_...] key, with the instant at which
    its time-to-live runs out. *)
Record RateEntry : Type := mkRateEntry {
  count : Z;
  windowStart : Z;
  expiry : Z
}.

(** An entry of the batched price response ([priceData[symbol]]). *)
Record CoinData : Type := mkCoinData {
  usd : JsVal;
  usd_24h_change : JsVal;
  usd_24h_vol : JsVal;
  usd_market_cap : JsVal
}.

(** What the pipeline does not decide: the price source, whether the Redis
    client behind [getCache] and [setCache] is connected, whether the two
    providers are configured, and whether a provider call succeeds. *)
Record Env : Type := mkEnv {
  getCurrentPrices : list string -> Completion (gmap string CoinData);
  redisAvailable : bool;
  emailEnabled : bool;
  smsEnabled : bool;
  sgMail_send : bool;
  twilio_create : bool
}.

(** A message handed to a provider, and whether the provider accepted it. *)
Record Delivery : Type := mkDelivery {
  via : ChannelType;
  recipient : string;
  delivered : bool
}.

Record World : Type := mkWorld {
  docs : gmap nat Alert;
  activeAlerts : list (string * nat);
  priceCache : gmap string PriceData;
  db : gmap string Alert;
  timers : list (Z * nat);
  rateCache : gmap string RateEntry;
  outbox : list Delivery;
  console : list string
}.

Definition set_docs (f : gmap nat Alert -> gmap nat Alert) (w : World) : World :=
  mkWorld (f (docs w)) (activeAlerts w) (priceCache w) (db w) (timers w)
          (rateCache w) (outbox w) (console w).

Definition set_activeAlerts (f : list (string * nat) -> list (string * nat)) (w : World) : World :=
  mkWorld (docs w) (f (activeAlerts w)) (priceCache w) (db w) (timers w)
          (rateCache w) (outbox w) (console w).

Definition set_priceCache (f : gmap string PriceData -> gmap string PriceData) (w : World) : World :=
  mkWorld (docs w) (activeAlerts w) (f (priceCache w)) (db w) (timers w)
          (rateCache w) (outbox w) (console w).

Definition set_db (f : gmap string Alert -> gmap string Alert) (w : World) : World :=
  mkWorld (docs w) (activeAlerts w) (priceCache w) (f (db w)) (timers w)
          (rateCache w) (outbox w) (console w).

Definition set_timers (f : list (Z * nat) -> list (Z * nat)) (w : World) : World :=
  mkWorld (docs w) (activeAlerts w) (priceCache w) (db w) (f (timers w))
          (rateCache w) (outbox w) (console w).

Definition set_rateCache (f : gmap string RateEntry -> gmap string RateEntry) (w : World) : World :=
  mkWorld (docs w) (activeAlerts w) (priceCache w) (db w) (timers w)
          (f (rateCache w)) (outbox w) (console w).

Definition set_outbox (f : list Delivery -> list Delivery) (w : World) : World :=
  mkWorld (docs w) (activeAlerts w) (priceCache w) (db w) (timers w)
          (rateCache w) (f (outbox w)) (console w).

Definition set_console (f : list string -> list string) (w : World) : World :=
  mkWorld (docs w) (activeAlerts w) (priceCache w) (db w) (timers w)
          (rateCache w) (outbox w) (f (console w)).

(** A computation changes the world and completes normally or abruptly; the
    changes made before a [throw] stay. *)
Definition M (A : Type) : Type := World -> Completion A * World.

Definition ret {A : Type} (a : A) : M A := fun w => (Return a, w).

Definition throw {A : Type} (message : string) : M A := fun w => (Throw message, w).

Definition bind {A B : Type} (m : M A) (k : A -> M B) : M B :=
  fun w =>
    match m w with
    | (Return a, w') => k a w'
    | (Throw e, w') => (Throw e, w')
    end.

(** [try { m } catch (error) { h error }] *)
Definition try_catch {A : Type} (m : M A) (h : string -> M A) : M A :=
  fun w =>
    match m w with
    | (Return a, w') => (Return a, w')
    | (Throw e, w') => h e w'
    end.

Definition gets {A : Type} (f : World -> A) : M A := fun w => (Return (f w), w).

Definition modify (f : World -> World) : M unit := fun w => (Return tt, f w).

Notation "x <- m ;; k" := (bind m (fun x => k))
  (at level 100, m at next level, right associativity, only parsing).
Notation "m ;;; k" := (bind m (fun _ => k))
  (at level 100, right associativity, only parsing).

(** [if (c) { m }] *)
Definition when (c : bool) (m : M unit) : M unit := if c then m else ret tt.

(** [for (const x of l) { body x }] *)
Fixpoint for_each {A : Type} (l : list A) (body : A -> M unit) : M unit :=
  match l with
  | [] => ret tt
  | x :: l' => body x ;;; for_each l' body
  end.

(** [console.error] / [console.warn] *)
Definition console_log (line : string) : M unit :=
  modify (set_console (fun c => c ++ [line])).

(** A rejected promise surfaces at the [await]. *)
Definition lift {A : Type} (c : Completion A) : M A := fun w => (c, w).

(** ** NotificationService *)

Record RateLimit : Type := mkRateLimit {
  limit : Z;
  window : Z
}.

(** [this.rateLimits] *)
Definition rateLimits (c : ChannelType) : RateLimit :=
  match c with
  | Email => mkRateLimit 100 3600000
  | Sms => mkRateLimit 20 3600000
  | Push => mkRateLimit 200 3600000
  end.

(** [`rate_limit_${type}_${identifier}`] *)
Definition rate_key (c : ChannelType) (identifier : string) : string :=
  String.append "rate_limit_"
    (String.append (channel_name c) (String.append "_" identifier)).

(** [getCache(key)]: [null] without a Redis client; an entry whose
    time-to-live has run out is gone. *)
Definition getCache (env : Env) (key : string) (now : Z) : M (option RateEntry) :=
  if redisAvailable env then
    gets (fun w =>
      match rateCache w !! key with
      | Some e => if now <? expiry e then Some e else None
      | None => None
      end)
  else ret None.

(** [setCache(key, { count, windowStart }, expireIn)], [expireIn] in seconds;
    nothing is written without a Redis client. *)
Definition setCache (env : Env) (key : string) (n start : Z) (expireIn : Z) (now : Z)
  : M unit :=
  if redisAvailable env then
    modify (set_rateCache (insert key (mkRateEntry n start (now + expireIn * 1000))))
  else ret tt.

Definition checkRateLimit (env : Env) (c : ChannelType) (identifier : string) (now : Z)
  : M bool :=
  let lim := rateLimits c in
  cached <- getCache env (rate_key c identifier) now ;;
  let currentCount := match cached with Some e => count e | None => 0 end in
  let start := match cached with Some e => windowStart e | None => now end in
  if window lim <? now - start then
    setCache env (rate_key c identifier) 0 now (window lim / 1000) now ;;;
    ret true
  else if limit lim <=? currentCount then
    console_log (String.append "Rate limit exceeded for " (channel_name c)) ;;;
    ret false
  else ret true.

Definition updateRateLimit (env : Env) (c : ChannelType) (identifier : string) (now : Z)
  : M unit :=
  let lim := rateLimits c in
  cached <- getCache env (rate_key c identifier) now ;;
  let currentCount := match cached with Some e => count e | None => 0 end in
  let start := match cached with Some e => windowStart e | None => now end in
  setCache env (rate_key c identifier) (currentCount + 1) start (window lim / 1000) now.

(** The object a send function resolves to: [{ success: true, ... }] or
    [{ success: false, error }]. *)
Inductive SendResult : Type :=
  | success_true
  | success_false (error : string).

(** The names of [this.emailTemplates]. *)
Inductive Template : Type :=
  | welcome
  | price_alert
  | portfolio_update
  | password_reset
  | email_verification.

(** The template generators.  [getPriceAlertEmailTemplate] and
    [getPortfolioUpdateEmailTemplate] read, inside their template literal, a
    variable that is not defined ([${{currentPrice}}], [${{totalValue}}]).
    The keys of the data of a template are identifiers, so that
    [processTemplate] returns. *)
Definition template_html (t : Template) : Completion unit :=
  match t with
  | price_alert => Throw "ReferenceError: currentPrice is not defined"
  | portfolio_update => Throw "ReferenceError: totalValue is not defined"
  | _ => Return tt
  end.

(** [/\D/]: a character that is not one of 0 to 9. *)
Definition is_digit (c : Ascii.ascii) : bool :=
  let n := Ascii.nat_of_ascii c in
  ((48 <=? n) && (n <=? 57))%nat.

(** [phoneNumber.replace(/\D/g, '')] *)
Fixpoint remove_non_digits (s : string) : string :=
  match s with
  | EmptyString => EmptyString
  | String c s' =>
      if is_digit c then String c (remove_non_digits s') else remove_non_digits s'
  end.

(** [formatPhoneNumber] of NotificationService. *)
Definition formatPhoneNumber (phoneNumber : string) : string :=
  let digits := remove_non_digits phoneNumber in
  if (String.length digits =? 10)%nat then String.append "+1" digits
  else if (String.length digits =? 11)%nat && String.prefix "1" digits then
    String.append "+" digits
  else if negb (String.prefix "+" digits) then String.append "+" digits
  else phoneNumber.

(** The provider call inside the [try] of a send function, for the address
    [recipient], and what follows it: the counter of [identifier] is updated
    when the provider accepts; a provider error is caught there and becomes
    [{ success: false }]. *)
Definition hand_over (env : Env) (c : ChannelType) (recipient identifier : string)
    (accepted : bool) (now : Z) : M SendResult :=
  modify (set_outbox (fun o => o ++ [mkDelivery c recipient accepted])) ;;;
  if accepted then
    updateRateLimit env c identifier now ;;;
    ret success_true
  else
    console_log (String.append "Error sending " (channel_name c)) ;;;
    ret (success_false "provider error").

(** [sendEmail]: the template, when one is named, is generated inside the
    [try], before the provider is called. *)
Definition sendEmail (env : Env) (to : string) (template : option Template) (now : Z)
  : M SendResult :=
  if negb (emailEnabled env) then
    console_log "Email service not enabled" ;;;
    ret (success_false "Email service not configured")
  else
    ok <- checkRateLimit env Email to now ;;
    if negb ok then throw "Email rate limit exceeded"
    else
      match match template with Some t => template_html t | None => Return tt end with
      | Throw e =>
          console_log (String.append "Error sending " (channel_name Email)) ;;;
          ret (success_false e)
      | Return _ => hand_over env Email to to (sgMail_send env) now
      end.

(** [sendSMS]: the provider is given the formatted number; the rate limit
    is kept for the number as it was passed. *)
Definition sendSMS (env : Env) (to : string) (now : Z) : M SendResult :=
  if negb (smsEnabled env) then
    console_log "SMS service not enabled" ;;;
    ret (success_false "SMS service not configured")
  else
    ok <- checkRateLimit env Sms to now ;;
    if negb ok then throw "SMS rate limit exceeded"
    else hand_over env Sms (formatPhoneNumber to) to (twilio_create env) now.

(** The push channel is simulated: once past the rate limit it succeeds. *)
Definition sendPushNotification (env : Env) (to : string) (now : Z) : M SendResult :=
  ok <- checkRateLimit env Push to now ;;
  if negb ok then throw "Push notification rate limit exceeded"
  else hand_over env Push to to true now.

(** ** AlertService, and the document methods that write to the store *)

Definition read_doc (loc : nat) : M Alert :=
  fun w =>
    match docs w !! loc with
    | Some a => (Return a, w)
    | None => (Throw "TypeError: document is not defined", w)
    end.

Definition update_doc (loc : nat) (f : Alert -> Alert) : M unit :=
  a <- read_doc loc ;;
  modify (set_docs (insert loc (f a))).

(** [alert.save()]: the document is validated, then written. *)
Definition save (loc : nat) : M unit :=
  a <- read_doc loc ;;
  if validate a then modify (set_db (insert (_id a) a))
  else throw "ValidationError: Alert validation failed".

(** A new document object, as returned by a query. *)
Definition alloc (a : Alert) : M nat :=
  fun w =>
    let loc := fresh (dom (docs w)) in
    (Return loc, set_docs (insert loc a) w).

(** Node's [setTimeout]: a delay outside 1 .. 2^31-1 milliseconds is set to 1.
    Pending timers are kept in firing order. *)
Definition timer_delay (delay : Z) : Z :=
  if (1 <=? delay) && (delay <=? 2147483647) then delay else 1.

Fixpoint insert_timer (t : Z * nat) (ts : list (Z * nat)) : list (Z * nat) :=
  match ts with
  | [] => [t]
  | t' :: ts' =>
      if fst t <? fst t' then t :: t' :: ts' else t' :: insert_timer t ts'
  end.

Definition setTimeout (now : Z) (delay : Z) (loc : nat) : M unit :=
  modify (set_timers (insert_timer (now + timer_delay delay, loc))).

(** The fields written by [alertSchema.methods.trigger]. *)
Definition trigger_fields (now : Z) (currentData : PriceData) (a : Alert) : Alert :=
  let a1 := set_isTriggered true a in
  let a2 := set_triggerCount (triggerCount a1 + 1) a1 in
  let a3 := set_lastTriggered now a2 in
  let a4 := if truthy (price currentData)
            then set_currentPrice (price currentData) a3 else a3 in
  push_executionLog
    (mkLogEntry "triggered" now (Some currentData) (Some (triggerCount a4))) a4.

(** [alertSchema.methods.trigger] *)
Definition trigger (now : Z) (loc : nat) (currentData : PriceData) : M unit :=
  update_doc loc (trigger_fields now currentData) ;;;
  a <- read_doc loc ;;
  when (0 <? repeatInterval (metadata a))
       (setTimeout now (repeatInterval (metadata a) * 60 * 1000) loc) ;;;
  save loc.

(** The callback armed by [trigger]:
    [() => { this.isTriggered = false; this.save(); }] *)
Definition reset_callback (loc : nat) : M unit :=
  update_doc loc (set_isTriggered false) ;;;
  save loc.

(** The [unhandledRejection] handler of server.js. *)
Definition unhandledRejection (e : string) : M unit :=
  console_log (String.append "Unhandled Promise Rejection: " e).

(** The event loop runs the callbacks that are due; the [save] of a callback
    is awaited by nobody. *)
Definition run_timers (now : Z) : M unit :=
  due <- gets (fun w => filter (fun t => fst t <= now) (timers w)) ;;
  modify (set_timers (filter (fun t => now < fst t))) ;;;
  for_each due (fun t => try_catch (reset_callback (snd t)) unhandledRejection).

(** [alertSchema.methods.pause] and [resume] *)
Definition pause (now : Z) (loc : nat) : M unit :=
  update_doc loc (fun a =>
    push_executionLog (mkLogEntry "paused" now None None)
      (mkAlert (_id a) (userId a) (symbol a) (type a) (condition a) false
               (isTriggered a) (triggerCount a) (lastTriggered a)
               (notifications a) (metadata a) (priceHistory a) (executionLog a))) ;;;
  save loc.

Definition resume (now : Z) (loc : nat) : M unit :=
  update_doc loc (fun a =>
    push_executionLog (mkLogEntry "resumed" now None None)
      (mkAlert (_id a) (userId a) (symbol a) (type a) (condition a) true
               false (triggerCount a) (lastTriggered a)
               (notifications a) (metadata a) (priceHistory a) (executionLog a))) ;;;
  save loc.

(** [String.prototype.toLowerCase] on ASCII tickers. *)
Definition lower_ascii (c : Ascii.ascii) : Ascii.ascii :=
  let n := Ascii.nat_of_ascii c in
  if ((65 <=? n) && (n <=? 90))%nat then Ascii.ascii_of_nat (n + 32) else c.

Fixpoint toLowerCase (s : string) : string :=
  match s with
  | EmptyString => EmptyString
  | String c s' => String (lower_ascii c) (toLowerCase s')
  end.

(** [[...new Set(xs)]]: first occurrences, in order. *)
Fixpoint dedupe (xs : list string) : list string :=
  match xs with
  | [] => []
  | x :: xs' => x :: filter (fun y => y <> x) (dedupe xs')
  end.

(** The cache entry built from one entry of the price response. *)
Definition cache_entry (now : Z) (data : CoinData) : PriceData :=
  mkPriceData (usd data)
              (js_or (usd_24h_change data) (num 0))
              (js_or (usd_24h_vol data) (num 0))
              (js_or (usd_market_cap data) (num 0))
              now.

(** The symbols of the documents in the index, lower-cased, without
    repetition. *)
Definition monitored_symbols (w : World) : list string :=
  dedupe ((fun a => toLowerCase (symbol a))
            <$> omap (fun loc => docs w !! loc) (map_values (activeAlerts w))).

(** [updatePrices] *)
Definition updatePrices (env : Env) (now : Z) : M unit :=
  size <- gets (fun w => length (activeAlerts w)) ;;
  if (size =? 0)%nat then ret tt
  else
    symbols <- gets monitored_symbols ;;
    if (length symbols =? 0)%nat then ret tt
    else
      try_catch
        (priceData <- lift (getCurrentPrices env symbols) ;;
         modify (set_priceCache (fun c => (cache_entry now <$> priceData) ∪ c)))
        (fun e => console_log (String.append "Error updating prices: " e)).

(** The values interpolated into the text of a notification, one shape per
    alert type. *)
Inductive AlertMessage : Type :=
  | has_reached (sym : string) (p target : JsVal)
  | has_dropped (sym : string) (p target : JsVal)
  | has_changed (sym : string) (change threshold : JsVal)
  | volume_spiked (sym : string) (vol : JsVal)
  | market_cap_changed (sym : string) (cap : JsVal)
  | alert_triggered (sym : string) (p : JsVal).

(** [x.toFixed(2)]: a TypeError when [x] is [undefined] or [null]. *)
Definition toFixed (v : JsVal) : Completion JsVal :=
  match v with
  | undefined => Throw "TypeError: Cannot read properties of undefined (reading 'toFixed')"
  | null => Throw "TypeError: Cannot read properties of null (reading 'toFixed')"
  | _ => Return v
  end.

Definition toFixed2 (v1 v2 : JsVal) (k : JsVal -> JsVal -> AlertMessage)
  : Completion AlertMessage :=
  match toFixed v1 with
  | Throw e => Throw e
  | Return x1 =>
      match toFixed v2 with
      | Throw e => Throw e
      | Return x2 => Return (k x1 x2)
      end
  end.

(** [generateAlertMessage] *)
Definition generateAlertMessage (a : Alert) (currentData : PriceData)
  : Completion AlertMessage :=
  let p := price currentData in
  let change := change24h currentData in
  if String.eqb (type a) "price_above" then
    toFixed2 p (targetPrice (condition a)) (has_reached (symbol a))
  else if String.eqb (type a) "price_below" then
    toFixed2 p (targetPrice (condition a)) (has_dropped (symbol a))
  else if String.eqb (type a) "price_change" then
    toFixed2 change (percentageChange (condition a)) (has_changed (symbol a))
  else if String.eqb (type a) "volume_spike" then
    Return (volume_spiked (symbol a) (volume currentData))
  else if String.eqb (type a) "market_cap_change" then
    Return (market_cap_changed (symbol a) (marketCap currentData))
  else
    match toFixed p with
    | Throw e => Throw e
    | Return x => Return (alert_triggered (symbol a) x)
    end.

(** [user.phoneNumber] used as a condition. *)
Definition phone_of (u : User) : option string :=
  match phoneNumber u with
  | Some s => if String.eqb s "" then None else Some s
  | None => None
  end.

(** The guard in front of each channel of [sendAlertNotifications], and the
    destination the channel is sent to. *)
Definition destination (c : ChannelType) (a : Alert) (u : User) : option string :=
  match c with
  | Email =>
      if enabled (email (notifications a)) && pref_email (preferences u)
      then Some (user_email u) else None
  | Sms =>
      if enabled (sms (notifications a)) && pref_sms (preferences u)
      then phone_of u else None
  | Push =>
      if enabled (push (notifications a)) && pref_push (preferences u)
      then Some (user_id u) else None
  end.

(** The send function of a channel; [template] is the template named in a
    call of [sendEmail]. *)
Definition send_with (template : option Template) (env : Env) (c : ChannelType)
    (to : string) (now : Z) : M SendResult :=
  match c with
  | Email => sendEmail env to template now
  | Sms => sendSMS env to now
  | Push => sendPushNotification env to now
  end.

(** The calls made by [sendAlertNotifications]: the e-mail of an alert names
    the template [price_alert]. *)
Definition send (env : Env) (c : ChannelType) (to : string) (now : Z) : M SendResult :=
  send_with (Some price_alert) env c to now.

(** One [if (...) { await notificationService.send...(...); sent = true; sentAt = new Date() }] *)
Definition notify_channel (env : Env) (now : Z) (loc : nat) (a : Alert) (u : User)
    (c : ChannelType) : M unit :=
  match destination c a u with
  | Some to =>
      send env c to now ;;;
      update_doc loc (mark_sent c now)
  | None => ret tt
  end.

(** [sendAlertNotifications] *)
Definition sendAlertNotifications (env : Env) (now : Z) (loc : nat)
    (currentData : PriceData) : M unit :=
  a <- read_doc loc ;;
  match userId a with
  | None => console_log "No user found for alert"
  | Some u =>
      lift (generateAlertMessage a currentData) ;;;
      try_catch
        (notify_channel env now loc a u Email ;;;
         notify_channel env now loc a u Sms ;;;
         notify_channel env now loc a u Push ;;;
         save loc)
        (fun e => console_log (String.append "Error sending alert notifications: " e))
  end.

(** [triggerAlert]; the socket emit and the user statistics that follow
    the index update do not touch the world kept here and are caught on
    their own. *)
Definition triggerAlert (env : Env) (now : Z) (loc : nat) (currentData : PriceData)
  : M unit :=
  try_catch
    (trigger now loc currentData ;;;
     sendAlertNotifications env now loc currentData ;;;
     a <- read_doc loc ;;
     when (repeatInterval (metadata a) =? 0)
          (modify (set_activeAlerts (map_delete (_id a)))))
    (fun e => console_log (String.append "Error triggering alert: " e)).

(** [updateAlertPriceHistory] *)
Definition updateAlertPriceHistory (now : Z) (loc : nat) (currentPrice : JsVal) : M unit :=
  try_catch
    (update_doc loc (addPriceHistory now currentPrice "coingecko") ;;;
     save loc)
    (fun e => console_log (String.append "Error updating price history: " e)).

(** The end of [processAlert], from [const currentData = ...] on. *)
Definition evaluate (env : Env) (now : Z) (loc : nat) (sym : string) : M unit :=
  currentData <- gets (fun w => priceCache w !! sym) ;;
  match currentData with
  | None => ret tt
  | Some cd =>
      updateAlertPriceHistory now loc (price cd) ;;;
      a <- read_doc loc ;;
      if shouldTrigger a now cd then triggerAlert env now loc cd else ret tt
  end.

(** [processAlert] *)
Definition processAlert (env : Env) (now : Z) (loc : nat) : M unit :=
  a <- read_doc loc ;;
  let sym := toLowerCase (symbol a) in
  priceData <- gets (fun w => priceCache w !! sym) ;;
  match priceData with
  | Some _ => evaluate env now loc sym
  | None =>
      match getCurrentPrices env [sym] with
      | Return freshData =>
          match freshData !! sym with
          | Some data => modify (set_priceCache (insert sym (cache_entry now data)))
          | None => ret tt
          end ;;;
          evaluate env now loc sym
      | Throw e => console_log (String.append "Error fetching price: " e)
      end
  end.

(** [processAlerts] *)
Definition processAlerts (env : Env) (now : Z) : M unit :=
  alertsToProcess <- gets (fun w => map_values (activeAlerts w)) ;;
  for_each alertsToProcess (fun loc =>
    try_catch (processAlert env now loc)
              (fun e => console_log (String.append "Error processing alert: " e))).

(** [updateAlert]: [Alert.findByIdAndUpdate(alertId, updateData, { new: true })]
    applies [updateData] to the stored document, whose [_id] cannot change,
    and yields the new version as a fresh document object. *)
Definition updateAlert (alertId : string) (updateData : Alert -> Alert) : M nat :=
  try_catch
    (found <- gets (fun w => db w !! alertId) ;;
     match found with
     | None => throw "Alert not found"
     | Some stored =>
         let a := set__id (_id stored) (updateData stored) in
         modify (set_db (insert alertId a)) ;;;
         loc <- alloc a ;;
         (if isActive a && negb (isTriggered a)
          then modify (set_activeAlerts (map_set alertId loc))
          else modify (set_activeAlerts (map_delete alertId))) ;;;
         ret loc
     end)
    (fun e => console_log (String.append "Error updating alert: " e) ;;; throw e).


(** The background work of the monitor: the two [setInterval] callbacks of
    [startPriceMonitoring] and [startAlertProcessing], and the timers armed by
    [trigger]. *)
Inductive Activity : Type :=
  | PriceRefresh (now : Z)
  | AlertEvaluation (now : Z)
  | TimersDue (now : Z).

Definition perform (env : Env) (act : Activity) : M unit :=
  match act with
  | PriceRefresh now =>
      try_catch (updatePrices env now)
                (fun e => console_log (String.append "Error in price monitoring: " e))
  | AlertEvaluation now =>
      try_catch (processAlerts env now)
                (fun e => console_log (String.append "Error in alert processing: " e))
  | TimersDue now => run_timers now
  end.

(** The world after a sequence of activities, each in the environment it
    meets. *)
Definition run (acts : list (Env * Activity)) (w : World) : World :=
  snd (for_each acts (fun act => perform (fst act) (snd act)) w).

(** ** More of the Alert model, of AlertService and of NotificationService *)

(** The virtual [status] of the Alert schema. *)
Definition status (a : Alert) (now : Z) : string :=
  if negb (isActive a) then "inactive"
  else if isTriggered a then "triggered"
  else if expired a now then "expired"
  else "active".



(** [getMonitoringStatus]: the sizes of the index and of the cache, and the
    latest [lastUpdated] of the cache, [null] when the cache is empty. *)
Record MonitoringStatus : Type := mkMonitoringStatus {
  activeAlertsCount : nat;
  cachedPricesCount : nat;
  lastPriceUpdate : option Z
}.

Definition getMonitoringStatus (w : World) : MonitoringStatus :=
  mkMonitoringStatus
    (length (activeAlerts w))
    (size (priceCache w))
    match lastUpdated <$> (snd <$> map_to_list (priceCache w)) with
    | [] => None
    | t :: ts => Some (foldr Z.max t ts)
    end.

(** ** CryptoService, the client of the price API *)

Module CryptoService.

(** The request counter of the client and the responses it has cached, each
    with the instant at which its time-to-live runs out. *)
Record Client : Type := mkClient {
  requestCount : Z;
  lastReset : Z;
  rateLimit : Z;
  cache : gmap string (gmap string CoinData * Z)
}.

(** [checkRateLimit]: the counter is reset once a minute has passed; a
    request over the limit is not counted.  The promise returned in that case
    is dropped by the request interceptor, which goes on with the request. *)
Definition checkRateLimit (now : Z) (s : Client) : Client :=
  let timeSinceReset := now - lastReset s in
  let s1 := if 60000 <=? timeSinceReset
            then mkClient 0 now (rateLimit s) (cache s) else s in
  if rateLimit s1 <=? requestCount s1 then s1
  else mkClient (requestCount s1 + 1) (lastReset s1) (rateLimit s1) (cache s1).

(** [`coingecko:prices:${symbols.join(',')}_${currencies.join(',')}`] *)
Definition cacheKey (symbols currencies : list string) : string :=
  String.append "coingecko:prices:"
    (String.append (String.concat "," symbols)
       (String.append "_" (String.concat "," currencies))).

(** [getCache(cacheKey)] on the responses. *)
Definition cached (redis : bool) (key : string) (now : Z) (s : Client)
  : option (gmap string CoinData) :=
  if redis then
    match cache s !! key with
    | Some (v, expiry) => if now <? expiry then Some v else None
    | None => None
    end
  else None.

(** [getCurrentPrices]: a cached response is returned as it is; otherwise
    the request goes through the interceptor to the API, whose answer [api]
    is cached for one minute, or whose failure is turned into one error. *)
Definition getCurrentPrices (redis : bool)
    (api : list string -> list string -> Completion (gmap string CoinData))
    (symbols currencies : list string) (now : Z) (s : Client)
  : Completion (gmap string CoinData) * Client :=
  match cached redis (cacheKey symbols currencies) now s with
  | Some v => (Return v, s)
  | None =>
      let s1 := checkRateLimit now s in
      match api symbols currencies with
      | Return prices =>
          (Return prices,
           if redis then
             mkClient (requestCount s1) (lastReset s1) (rateLimit s1)
                      (insert (cacheKey symbols currencies) (prices, now + 60 * 1000)
                              (cache s1))
           else s1)
      | Throw _ => (Throw "Failed to fetch current prices", s1)
      end
  end.

(** [getApiStatus().timeUntilReset] *)
Definition timeUntilReset (now : Z) (s : Client) : Z :=
  Z.max 0 (60000 - (now - lastReset s)).

End CryptoService.

(** ** The vocabulary of the specification *)

(** The preconditions of the evaluator, as the specification lists them:
    active, not already triggered, not expired, below its trigger budget. *)
Definition passes_preconditions (a : Alert) (now : Z) : Prop :=
  isActive a = true /\
  isTriggered a = false /\
  (forall e, expiresAt (metadata a) = Some e -> now <= e) /\
  (inject_Z (triggerCount a) < maxTriggers (metadata a))%Q.

(** Orders between an observed value and a threshold, both of them numbers
    as [>=] and [<=] read them ([null] is read as 0, an absent value as
    [NaN], which is no number). *)
Definition at_least (observed threshold : JsVal) : Prop :=
  exists x t, ToNumber observed = Some x /\ ToNumber threshold = Some t /\ (t <= x)%Q.

Definition at_most (observed threshold : JsVal) : Prop :=
  exists x t, ToNumber observed = Some x /\ ToNumber threshold = Some t /\ (x <= t)%Q.

Definition abs_at_least (observed threshold : JsVal) : Prop :=
  exists x t,
    ToNumber observed = Some x /\ ToNumber threshold = Some t /\ (Qabs t <= Qabs x)%Q.

(** The kind table of the evaluator. *)
Definition kind_table (a : Alert) (obs : PriceData) : Prop :=
  (type a = "price_above" /\ at_least (price obs) (targetPrice (condition a))) \/
  (type a = "price_below" /\ at_most (price obs) (targetPrice (condition a))) \/
  (type a = "price_change" /\
     abs_at_least (change24h obs) (percentageChange (condition a))) \/
  (type a = "volume_spike" /\ at_least (volume obs) (volumeThreshold (condition a))) \/
  (type a = "market_cap_change" /\
     at_least (marketCap obs) (marketCapThreshold (condition a))).

Definition known_kinds : list string :=
  ["price_above"; "price_below"; "price_change"; "volume_spike"; "market_cap_change"].

(** The condition field that each kind reads. *)
Definition required_field (a : Alert) : option JsVal :=
  if String.eqb (type a) "price_above" then Some (targetPrice (condition a))
  else if String.eqb (type a) "price_below" then Some (targetPrice (condition a))
  else if String.eqb (type a) "price_change" then Some (percentageChange (condition a))
  else if String.eqb (type a) "volume_spike" then Some (volumeThreshold (condition a))
  else if String.eqb (type a) "market_cap_change" then Some (marketCapThreshold (condition a))
  else None.

(** A malformed alert: a kind outside the variant set, or the field of its
    kind absent. *)
Definition malformed (a : Alert) : Prop :=
  type a ∉ known_kinds \/ required_field a = Some undefined.

(** A sequence of [addPriceHistory] calls, each with its instant, price and
    source. *)
Definition record_prices (calls : list (Z * JsVal * string)) (a : Alert) : Alert :=
  foldl (fun acc c => addPriceHistory (fst (fst c)) (snd (fst c)) (snd c) acc) a calls.

(** The entries these calls push. *)
Definition pushed_entries (calls : list (Z * JsVal * string)) : list PriceEntry :=
  (fun c => mkPriceEntry (snd (fst c)) (fst (fst c)) (snd c)) <$> calls.

(** [hoare P m Q]: run from a world that satisfies [P], the computation [m]
    leaves a world that satisfies [Q], whether it returns or throws. *)
Definition hoare {A : Type} (P : World -> Prop) (m : M A) (Q : World -> Prop) : Prop :=
  forall w, P w -> Q (snd (m w)).

(** [returns m]: the computation never completes abruptly. *)
Definition returns {A : Type} (m : M A) : Prop :=
  forall w, exists a, fst (m w) = Return a.

(** What the monitor may do to the counters of a document: the budget is
    left alone; the count stays what it is, or it was below the budget and
    has grown to less than one above the budget. *)
Definition doc_step (a a' : Alert) : Prop :=
  maxTriggers (metadata a') = maxTriggers (metadata a) /\
  (triggerCount a' = triggerCount a \/
   (inject_Z (triggerCount a) < maxTriggers (metadata a))%Q /\
   triggerCount a < triggerCount a' /\
   (inject_Z (triggerCount a') < maxTriggers (metadata a) + 1)%Q).

Definition evolves (w w' : World) : Prop :=
  forall loc a, docs w !! loc = Some a ->
    exists a', docs w' !! loc = Some a' /\ doc_step a a'.


(** What an evaluation cycle at [now] that reads the cached observation
    [obs] leaves of the document [a]: the observed price is the last entry
    of its history, and the alert has been triggered, once, exactly when the
    evaluator answers true for [a] on [obs]. *)
Definition evaluated_against (a : Alert) (now : Z) (obs : PriceData) (a' : Alert) : Prop :=
  symbol a' = symbol a /\
  last (priceHistory a') = Some (mkPriceEntry (price obs) now "coingecko") /\
  shouldTrigger a' now obs = false /\
  if shouldTrigger a now obs
  then isTriggered a' = true /\ triggerCount a' = triggerCount a + 1
  else isTriggered a' = isTriggered a /\ triggerCount a' = triggerCount a.

(** Document [loc] is [x] and the cache holds [obs] for [sym]. *)
Definition untouched (loc : nat) (x : Alert) (sym : string) (obs : PriceData)
    (w : World) : Prop :=
  docs w !! loc = Some x /\ priceCache w !! sym = Some obs.

(** Whether the provider of a channel is configured, and whether it accepts
    what it is handed. *)
Definition configured (env : Env) (c : ChannelType) : bool :=
  match c with
  | Email => emailEnabled env
  | Sms => smsEnabled env
  | Push => true
  end.

Definition accepted (env : Env) (c : ChannelType) : bool :=
  match c with
  | Email => sgMail_send env
  | Sms => twilio_create env
  | Push => true
  end.

(** The rate limit of channel [c] for destination [to] is exceeded at [now]:
    the counters are reachable and hold a live counter, inside its window,
    that has reached the limit. *)
Definition rate_limited (env : Env) (c : ChannelType) (to : string) (now : Z)
    (w : World) : bool :=
  redisAvailable env &&
  match rateCache w !! rate_key c to with
  | Some e =>
      (now <? expiry e) && (now - windowStart e <=? window (rateLimits c))
      && (limit (rateLimits c) <=? count e)
  | None => false
  end.

(** Whether the message of a call can be put together: the template named
    in a call of [sendEmail] is generated without an exception. *)
Definition renders (c : ChannelType) (template : option Template) : bool :=
  match c, template with
  | Email, Some t => match template_html t with Return _ => true | Throw _ => false end
  | _, _ => true
  end.

(** The address a provider is given for the destination [to]. *)
Definition address (c : ChannelType) (to : string) : string :=
  match c with
  | Sms => formatPhoneNumber to
  | _ => to
  end.






(** The worlds that differ from the one left by [trigger] only by what a
    notification may write: document [loc] and its stored copy are [a1] up to
    their [notifications], the index is [idx] and the pending timers are
    [ts]. *)
Definition notified_only (a1 : Alert) (loc : nat) (idx : list (string * nat))
    (ts : list (Z * nat)) (w : World) : Prop :=
  (exists a', docs w !! loc = Some a' /\ set_notifications (notifications a1) a' = a1) /\
  (exists s, db w !! _id a1 = Some s /\ set_notifications (notifications a1) s = a1) /\
  activeAlerts w = idx /\ timers w = ts.

(** The same, of the documents in memory only: the store may not have
    taken the write of [trigger]. *)
Definition stamped_only (a1 : Alert) (loc : nat) (idx : list (string * nat))
    (ts : list (Z * nat)) (w : World) : Prop :=
  (exists a', docs w !! loc = Some a' /\ set_notifications (notifications a1) a' = a1) /\
  activeAlerts w = idx /\ timers w = ts.

(** The world [trigger] leaves before it saves: the document rewritten and,
    for a repeating alert, the reset armed. *)
Definition triggered_world (now : Z) (loc : nat) (cd : PriceData) (a : Alert)
    (w : World) : World :=
  (if 0 <? repeatInterval (metadata a)
   then set_timers (insert_timer
          (now + timer_delay (repeatInterval (metadata a) * 60 * 1000), loc))
   else fun w => w)
    (set_docs (insert loc (trigger_fields now cd a)) w).


Definition set_priceHistory (h : list PriceEntry) (a : Alert) : Alert :=
  mkAlert (_id a) (userId a) (symbol a) (type a) (condition a) (isActive a)
          (isTriggered a) (triggerCount a) (lastTriggered a) (notifications a)
          (metadata a) h (executionLog a).



(** While the due callbacks run: document [loc] is [a1] up to its price
    history and its [isTriggered] flag. *)
Definition resetting (loc : nat) (a1 : Alert) (w : World) : Prop :=
  exists a', docs w !! loc = Some a' /\
    set_isTriggered (isTriggered a1) (set_priceHistory (priceHistory a1) a') = a1.

(** Two versions of an alert that the evaluator and the message builder
    cannot tell apart but for the status fields. *)
Definition same_rule (a b : Alert) : Prop :=
  type a = type b /\
  targetPrice (condition a) = targetPrice (condition b) /\
  percentageChange (condition a) = percentageChange (condition b) /\
  volumeThreshold (condition a) = volumeThreshold (condition b) /\
  marketCapThreshold (condition a) = marketCapThreshold (condition b) /\
  isActive a = isActive b /\
  metadata a = metadata b /\
  symbol a = symbol b.

(** ** Sample data *)

Definition ada : User :=
  mkUser "u1" "ada@example.com" (Some "+15550100") (mkUserPrefs true true true).

Definition all_channels : Notifications :=
  mkNotifications (mkChannel true false None) (mkChannel true false None)
                  (mkChannel true false None).

(** A BTC price_above alert with target 45000, with the given repeat
    interval and trigger budget. *)
Definition btc_above (repeat : Z) (budget : Q) : Alert :=
  mkAlert "a1" (Some ada) "BTC" "price_above"
          (mkCondition (num 45000) undefined undefined "24h" undefined undefined)
          true false 0 None all_channels
          (mkMetadata "medium" repeat budget None) [] [].

(** The same alert with its target stored as [null], and a price_below
    alert with target 45000. *)
Definition btc_above_null : Alert :=
  mkAlert "a1" (Some ada) "BTC" "price_above"
          (mkCondition null undefined undefined "24h" undefined undefined)
          true false 0 None all_channels
          (mkMetadata "medium" 0 1 None) [] [].

Definition btc_below : Alert :=
  mkAlert "a1" (Some ada) "BTC" "price_below"
          (mkCondition (num 45000) undefined undefined "24h" undefined undefined)
          true false 0 None all_channels
          (mkMetadata "medium" 0 1 None) [] [].

Definition btc_at (p : Q) : PriceData :=
  mkPriceData (num p) (num 0) (num 0) (num 0) 0.

(** A monitor that has loaded one alert: document 0, in the index and in the
    store, and a cached observation for its symbol. *)
Definition watching (a : Alert) (sym : string) (obs : PriceData) : World :=
  mkWorld {[ 0%nat := a ]} [(_id a, 0%nat)] {[ sym := obs ]} {[ _id a := a ]}
          [] ∅ [] [].

Definition quiet_env : Env :=
  mkEnv (fun _ => Throw "Failed to fetch current prices") true true true true true.

(** The monitor of [watching], the e-mail address of the user having used
    up its 100 messages of the current hour. *)
Definition email_exhausted (a : Alert) (sym : string) (obs : PriceData) : World :=
  set_rateCache
    (insert (rate_key Email "ada@example.com") (mkRateEntry 100 0 3600000))
    (watching a sym obs).

(** The re-arming of a repeating alert, as the specification words it: once
    the alert has triggered at [t0] and the callbacks due one minute after
    its repeat interval have run, an evaluation cycle on a price that still
    qualifies triggers it a second time. *)
Definition retriggers_after_reset (env : Env) (a : Alert) (sym : string)
    (cd : PriceData) (t0 : Z) : Prop :=
  let w1 := snd (triggerAlert env t0 0 cd (watching a sym cd)) in
  let t1 := t0 + (repeatInterval (metadata a) + 1) * 60 * 1000 in
  let w2 := run [(env, TimersDue t1); (env, AlertEvaluation t1)] w1 in
  exists a2, docs w2 !! 0%nat = Some a2 /\ triggerCount a2 = triggerCount a + 2.

(** ** Vocabulary for the rest of the services *)

(** A value that is a number, neither [undefined], [null] nor [NaN]. *)
Definition is_number (v : JsVal) : Prop := exists q, v = num q.



(** A series of calls of the send function of channel [c] for one
    destination, each at its instant and in its environment, the calls of
    [sendEmail] naming [template]; a call that throws leaves the world it
    reached. *)
Fixpoint send_many (template : option Template) (c : ChannelType) (to : string)
    (calls : list (Env * Z)) (w : World) : World :=
  match calls with
  | [] => w
  | (env, now) :: rest =>
      send_many template c to rest (snd (send_with template env c to now w))
  end.

(** The messages for the address [to] on channel [c] that a provider
    accepted. *)
Definition accepted_count (c : ChannelType) (to : string) (o : list Delivery) : nat :=
  length (filter (fun d => via d = c /\ recipient d = to /\ delivered d = true) o).

(** A string of decimal digits. *)
Fixpoint all_digits (s : string) : bool :=
  match s with
  | EmptyString => true
  | String c s' => is_digit c && all_digits s'
  end.

(** A series of requests through the interceptor of the API client. *)
Definition requests (times : list Z) (s : CryptoService.Client) : CryptoService.Client :=
  foldl (fun acc now => CryptoService.checkRateLimit now acc) s times.

(** The documents of [w] are still there in [w'], each related by [R] to
    what it was. *)
Definition related (R : Alert -> Alert -> Prop) (w w' : World) : Prop :=
  forall loc a, docs w !! loc = Some a ->
    exists a', docs w' !! loc = Some a' /\ R a a'.

(** What the monitor leaves alone in a document: its identity, its owner
    and its rule. *)
Definition same_alert (a a' : Alert) : Prop :=
  _id a' = _id a /\ userId a' = userId a /\ same_rule a' a /\
  timeframe (condition a') = timeframe (condition a).

(** The execution log only grows, by one [triggered] entry for each unit of
    the trigger count. *)
Definition logged_triggers (a a' : Alert) : Prop :=
  exists entries,
    executionLog a' = executionLog a ++ entries /\
    Forall (fun e => action e = "triggered") entries /\
    triggerCount a' = triggerCount a + Z.of_nat (length entries).

(** The price history stays within 100 entries, or within its length when
    it was longer. *)
Definition history_bounded (a a' : Alert) : Prop :=
  (length (priceHistory a') <= Nat.max (length (priceHistory a)) 100)%nat.

(** The counter of a destination during one window that starts at [t0]:
    none yet, or a live counter that has counted the accepted messages. *)
Definition counting (c : ChannelType) (to : string) (t0 : Z) (sent0 : nat) (w : World)
  : Prop :=
  match rateCache w !! rate_key c to with
  | None => accepted_count c (address c to) (outbox w) = sent0
  | Some e =>
      t0 <= windowStart e < t0 + window (rateLimits c) /\
      t0 + window (rateLimits c) <= expiry e /\
      0 <= count e <= limit (rateLimits c) /\
      Z.of_nat (accepted_count c (address c to) (outbox w)) = Z.of_nat sent0 + count e
  end.

(** * Properties *)

(** ** The evaluator *)

Lemma js_ge_at_least x y : js_ge x y = true <-> at_least x y.
Proof.
  unfold js_ge, at_least. split.
  - destruct (ToNumber x) as [p|], (ToNumber y) as [t|]; try discriminate.
    intros H. exists p, t. by rewrite <- Qle_bool_iff.
  - intros (p & t & -> & -> & H). by apply Qle_bool_iff.
Qed.

Lemma js_le_at_most x y : js_le x y = true <-> at_most x y.
Proof.
  unfold js_le, at_most. split.
  - destruct (ToNumber x) as [p|], (ToNumber y) as [t|]; try discriminate.
    intros H. exists p, t. by rewrite <- Qle_bool_iff.
  - intros (p & t & -> & -> & H). by apply Qle_bool_iff.
Qed.

Lemma js_ge_abs x y : js_ge (Math_abs x) (Math_abs y) = true <-> abs_at_least x y.
Proof.
  unfold js_ge, Math_abs, abs_at_least. split.
  - destruct (ToNumber x) as [p|], (ToNumber y) as [t|]; simpl; try discriminate.
    intros H. exists p, t. by rewrite <- Qle_bool_iff.
  - intros (p & t & -> & -> & H). simpl. by apply Qle_bool_iff.
Qed.

Lemma Qle_bool_false x y : Qle_bool x y = false <-> (y < x)%Q.
Proof.
  split.
  - intros H. apply Qnot_le_lt. intros Hle. apply Qle_bool_iff in Hle. congruence.
  - intros H. destruct (Qle_bool x y) eqn:E; [|done].
    apply Qle_bool_iff in E. by apply Qlt_not_le in H.
Qed.

Lemma preconditions_fall_through a now obs :
  passes_preconditions a now ->
  shouldTrigger a now obs =
    if String.eqb (type a) "price_above" then
      js_ge (price obs) (targetPrice (condition a))
    else if String.eqb (type a) "price_below" then
      js_le (price obs) (targetPrice (condition a))
    else if String.eqb (type a) "price_change" then
      js_ge (Math_abs (change24h obs)) (Math_abs (percentageChange (condition a)))
    else if String.eqb (type a) "volume_spike" then
      js_ge (volume obs) (volumeThreshold (condition a))
    else if String.eqb (type a) "market_cap_change" then
      js_ge (marketCap obs) (marketCapThreshold (condition a))
    else false.
Proof.
  intros (Hact & Htrig & Hexp & Hcount). unfold shouldTrigger, expired.
  rewrite Hact, Htrig. simpl.
  apply Qle_bool_false in Hcount. rewrite Hcount.
  destruct (expiresAt (metadata a)) as [e|] eqn:He; [|done].
  specialize (Hexp e eq_refl).
  by destruct (Z.ltb_spec e now); [lia|].
Qed.

Lemma kind_switch_table a obs :
  (if String.eqb (type a) "price_above" then
     js_ge (price obs) (targetPrice (condition a))
   else if String.eqb (type a) "price_below" then
     js_le (price obs) (targetPrice (condition a))
   else if String.eqb (type a) "price_change" then
     js_ge (Math_abs (change24h obs)) (Math_abs (percentageChange (condition a)))
   else if String.eqb (type a) "volume_spike" then
     js_ge (volume obs) (volumeThreshold (condition a))
   else if String.eqb (type a) "market_cap_change" then
     js_ge (marketCap obs) (marketCapThreshold (condition a))
   else false) = true <-> kind_table a obs.
Proof.
  unfold kind_table.
  destruct (String.eqb_spec (type a) "price_above") as [E1|N1].
  { rewrite js_ge_at_least, E1. split; [by left|].
    intros [[_ H]|[[? _]|[[? _]|[[? _]|[? _]]]]]; done. }
  destruct (String.eqb_spec (type a) "price_below") as [E2|N2].
  { rewrite js_le_at_most, E2. split; [by right; left|].
    intros [[? _]|[[_ H]|[[? _]|[[? _]|[? _]]]]]; done. }
  destruct (String.eqb_spec (type a) "price_change") as [E3|N3].
  { rewrite js_ge_abs, E3. split; [by right; right; left|].
    intros [[? _]|[[? _]|[[_ H]|[[? _]|[? _]]]]]; done. }
  destruct (String.eqb_spec (type a) "volume_spike") as [E4|N4].
  { rewrite js_ge_at_least, E4. split; [by right; right; right; left|].
    intros [[? _]|[[? _]|[[? _]|[[_ H]|[? _]]]]]; done. }
  destruct (String.eqb_spec (type a) "market_cap_change") as [E5|N5].
  { rewrite js_ge_at_least, E5. split; [by right; right; right; right|].
    intros [[? _]|[[? _]|[[? _]|[[? _]|[_ H]]]]]; done. }
  split; [done|].
  intros [[? _]|[[? _]|[[? _]|[[? _]|[? _]]]]]; done.
Qed.

(** C1. An alert that passes the preconditions triggers exactly when the row
    of the kind table for its type holds: price at or above the target, price
    at or below the target, absolute 24h change at or above the absolute
    threshold, volume at or above its threshold, market cap at or above its
    threshold; equality triggers. *)
Theorem shouldTrigger_kind_table a now obs :
  passes_preconditions a now ->
  shouldTrigger a now obs = true <-> kind_table a obs.
Proof.
  intros Hpre. rewrite (preconditions_fall_through a now obs Hpre).
  apply kind_switch_table.
Qed.

Lemma shouldTrigger_kind_table_witness :
  passes_preconditions (btc_above 0 1) 1000 /\
  (shouldTrigger (btc_above 0 1) 1000 (btc_at 45000) = true <->
   kind_table (btc_above 0 1) (btc_at 45000)).
Proof.
  assert (Hpre : passes_preconditions (btc_above 0 1) 1000).
  { unfold passes_preconditions; simpl. split; [reflexivity|]. split; [reflexivity|].
    split; [intros e He; discriminate He | reflexivity]. }
  split; [exact Hpre | exact (shouldTrigger_kind_table _ _ _ Hpre)].
Defined.

(** The boundary of price_above is inclusive, and price_change compares
    magnitudes (scenarios 1 and 6 of the specification). *)
Example price_above_boundary :
  shouldTrigger (btc_above 0 1) 1000 (btc_at 45000) = true /\
  shouldTrigger (btc_above 0 1) 1000 (btc_at (4499999 # 100)) = false.
Proof. by split. Qed.

Example price_change_magnitude :
  let a := mkAlert "a3" (Some ada) "ETH" "price_change"
             (mkCondition undefined undefined (num 5) "24h" undefined undefined)
             true false 0 None all_channels (mkMetadata "medium" 0 1 None) [] [] in
  shouldTrigger a 1000 (mkPriceData (num 3000) (num (-31 # 5)) (num 0) (num 0) 0) = true /\
  shouldTrigger a 1000 (mkPriceData (num 3000) (num (31 # 10)) (num 0) (num 0) 0) = false.
Proof. by split. Qed.

(** C2. An alert that is inactive, or already triggered, or past its expiry,
    or at its trigger budget never triggers, whatever its type, its condition
    and the observation. *)
Theorem shouldTrigger_preconditions a now obs :
  isActive a = false \/
  isTriggered a = true \/
  (exists e, expiresAt (metadata a) = Some e /\ e < now) \/
  (maxTriggers (metadata a) <= inject_Z (triggerCount a))%Q ->
  shouldTrigger a now obs = false.
Proof.
  unfold shouldTrigger, expired.
  intros [H|[H|[(e & He & Hlt)|H]]].
  - by rewrite H.
  - rewrite H. by rewrite orb_true_r.
  - rewrite He. destruct (negb (isActive a) || isTriggered a); [done|].
    by destruct (Z.ltb_spec e now); [|lia].
  - destruct (negb (isActive a) || isTriggered a); [done|].
    destruct (match expiresAt (metadata a) with Some e => e <? now | None => false end);
      [done|].
    apply Qle_bool_iff in H. by rewrite H.
Qed.

Lemma shouldTrigger_preconditions_witness :
  shouldTrigger (set_triggerCount 1 (btc_above 0 1)) 1000 (btc_at 50000) = false.
Proof.
  apply shouldTrigger_preconditions. right; right; right. by vm_compute.
Defined.

(** C9. A malformed alert is inert: when its type is outside the five known
    kinds, or the condition field of its kind is absent, [shouldTrigger]
    returns false for every instant and observation.  The function reads
    fields of objects that always exist and compares them; none of
    these steps can throw. *)
Theorem shouldTrigger_malformed a now obs :
  malformed a -> shouldTrigger a now obs = false.
Proof.
  unfold malformed, required_field, shouldTrigger, known_kinds.
  intros Hbad.
  destruct (negb (isActive a) || isTriggered a); [done|].
  destruct (expired a now); [done|].
  destruct (Qle_bool (maxTriggers (metadata a)) (inject_Z (triggerCount a))); [done|].
  repeat
    lazymatch goal with
    | |- context [String.eqb (type a) ?k] =>
        let E := fresh "E" in
        destruct (String.eqb_spec (type a) k) as [E|E];
        [ destruct Hbad as [Hk|Hf];
          [ exfalso; apply Hk; rewrite E; set_solver
          | injection Hf as Hf; rewrite Hf;
            unfold js_ge, js_le, Math_abs; simpl;
            repeat match goal with |- context [ToNumber ?v] => destruct (ToNumber v) end;
            done ]
        | ]
    end.
  done.
Qed.

Lemma shouldTrigger_malformed_witness :
  shouldTrigger
    (mkAlert "a2" (Some ada) "ETH" "volume_spike"
             (mkCondition (num 10) undefined undefined "24h" undefined undefined)
             true false 0 None all_channels (mkMetadata "medium" 0 1 None) [] [])
    1000 (btc_at 50000) = false.
Proof.
  apply shouldTrigger_malformed. right. reflexivity.
Defined.


(** A threshold that is stored as [null] is not an absent one: it is read
    as 0, and a price_above alert with such a target fires on every price
    from 0 on. *)
Example null_threshold_fires :
  shouldTrigger btc_above_null 1000 (btc_at 45250) = true /\
  shouldTrigger btc_above_null 1000 (btc_at 0) = true /\
  ~ malformed btc_above_null.
Proof.
  split; [done|]. split; [done|]. unfold malformed. intros [H|H]; [|done].
  apply H. set_solver.
Qed.
(** ** The bounded price history *)

Lemma slice_last_short {A} n (l : list A) :
  (length l <= n)%nat -> slice_last n l = l.
Proof.
  intros H. unfold slice_last. by replace (length l - n)%nat with 0%nat by lia.
Qed.

Lemma slice_last_length {A} n (l : list A) :
  length (slice_last n l) = Nat.min n (length l).
Proof. unfold slice_last. rewrite length_drop. lia. Qed.

Lemma slice_last_suffix {A} n (l : list A) :
  take (length l - n) l ++ slice_last n l = l.
Proof. apply take_drop. Qed.

Lemma slice_last_app {A} n (l l' : list A) :
  slice_last n (slice_last n l ++ l') = slice_last n (l ++ l').
Proof.
  destruct (decide (length l <= n)%nat) as [Hle|Hgt].
  - by rewrite (slice_last_short n l Hle).
  - unfold slice_last at 1 3. rewrite !length_app, slice_last_length.
    replace (Nat.min n (length l) + length l' - n)%nat with (length l') by lia.
    replace (length l + length l' - n)%nat
      with ((length l - n) + length l')%nat by lia.
    rewrite <- drop_drop, (drop_app_le l) by lia. done.
Qed.

Lemma addPriceHistory_history now p source a :
  priceHistory (addPriceHistory now p source a) =
  slice_last 100 (priceHistory a ++ [mkPriceEntry p now source]).
Proof.
  unfold addPriceHistory. cbn [priceHistory].
  destruct (Nat.ltb_spec 100 (length (priceHistory a ++ [mkPriceEntry p now source])));
    [done|].
  by rewrite slice_last_short.
Qed.

Lemma record_prices_history calls : forall a,
  calls <> [] ->
  priceHistory (record_prices calls a) =
  slice_last 100 (priceHistory a ++ pushed_entries calls).
Proof.
  unfold record_prices, pushed_entries.
  induction calls as [|c calls IH]; intros a Hne; [done|].
  cbn [foldl fmap list_fmap].
  destruct calls as [|c' calls'].
  - cbn [foldl fmap list_fmap]. apply addPriceHistory_history.
  - rewrite IH by done. rewrite addPriceHistory_history.
    rewrite slice_last_app. by rewrite <- app_assoc.
Qed.

(** C7. After any sequence of [addPriceHistory] calls the history holds at
    most 100 entries, and they are the most recent ones: the history is the
    tail of everything observed, of length 100 as soon as that many entries
    exist, the evicted entries being the oldest. *)
Theorem price_history_bounded_fifo a calls :
  calls <> [] \/ (length (priceHistory a) <= 100)%nat ->
  let observed := priceHistory a ++ pushed_entries calls in
  let kept := priceHistory (record_prices calls a) in
  (length kept <= 100)%nat /\
  length kept = Nat.min 100 (length observed) /\
  exists evicted, observed = evicted ++ kept.
Proof.
  intros H observed kept.
  assert (Hkept : kept = slice_last 100 observed).
  { subst kept observed. destruct calls as [|c calls].
    - destruct H as [H|H]; [done|]. cbn. rewrite app_nil_r.
      by rewrite slice_last_short.
    - by apply record_prices_history. }
  rewrite Hkept, slice_last_length. repeat split; [lia|].
  exists (take (length observed - 100) observed).
  by rewrite slice_last_suffix.
Qed.

Lemma price_history_bounded_fifo_witness :
  let calls := [(1, num 44000, "coingecko"); (2, num 45250, "coingecko")] in
  let a := btc_above 0 1 in
  let observed := priceHistory a ++ pushed_entries calls in
  let kept := priceHistory (record_prices calls a) in
  (length kept <= 100)%nat /\
  length kept = Nat.min 100 (length observed) /\
  exists evicted, observed = evicted ++ kept.
Proof.
  apply price_history_bounded_fifo. left. discriminate.
Defined.

(** ** The index of active alerts *)

Section JsMapFacts.
Context {V : Type}.
Implicit Types (m : list (string * V)) (k : string) (v : V).





End JsMapFacts.



(** The alert of the monitor [watching] leaves the index when an update
    marks it triggered, and a second update that clears the flag puts the
    new version back. *)
Example update_removes_then_readds :
  let w := watching (btc_above 0 1) "btc" (btc_at 44000) in
  let w1 := snd (updateAlert "a1" (set_isTriggered true) w) in
  let w2 := snd (updateAlert "a1" (set_isTriggered false) w1) in
  map_get "a1" (activeAlerts w) = Some 0%nat /\
  map_get "a1" (activeAlerts w1) = None /\
  map_get "a1" (activeAlerts w2) = Some 2%nat /\
  (isTriggered <$> docs w2 !! 2%nat) = Some false.
Proof. by vm_compute. Qed.
(** ** Reasoning about computations *)

Section Hoare.
Context {A : Type}.
Implicit Types (P Q R I : World -> Prop).

Lemma hoare_conseq P P' Q Q' (m : M A) :
  (forall w, P' w -> P w) -> (forall w, Q w -> Q' w) ->
  hoare P m Q -> hoare P' m Q'.
Proof. intros HP HQ H w Hw. apply HQ, H, HP, Hw. Qed.

Lemma hoare_ret P Q (a : A) : (forall w, P w -> Q w) -> hoare P (ret a) Q.
Proof. intros H w Hw. by apply H. Qed.

Lemma hoare_throw P Q e : (forall w, P w -> Q w) -> hoare P (@throw A e) Q.
Proof. intros H w Hw. by apply H. Qed.

Lemma hoare_lift P Q (c : Completion A) : (forall w, P w -> Q w) -> hoare P (lift c) Q.
Proof. intros H w Hw. by apply H. Qed.

Lemma hoare_gets P Q (f : World -> A) : (forall w, P w -> Q w) -> hoare P (gets f) Q.
Proof. intros H w Hw. by apply H. Qed.

Lemma hoare_bind {B} P R Q (m : M B) (k : B -> M A) :
  hoare P m R -> (forall b, hoare R (k b) Q) -> (forall w, R w -> Q w) ->
  hoare P (bind m k) Q.
Proof.
  intros Hm Hk HRQ w Hw. unfold bind. specialize (Hm w Hw).
  destruct (m w) as [[b|e] w1]; simpl in *; [by apply Hk | by apply HRQ].
Qed.

Lemma hoare_try_catch P R Q (m : M A) (h : string -> M A) :
  hoare P m R -> (forall e, hoare R (h e) Q) -> (forall w, R w -> Q w) ->
  hoare P (try_catch m h) Q.
Proof.
  intros Hm Hh HRQ w Hw. unfold try_catch. specialize (Hm w Hw).
  destruct (m w) as [[a|e] w1]; simpl in *; [by apply HRQ | by apply Hh].
Qed.

Lemma hoare_gets_bind {B} P Q (f : World -> B) (k : B -> M A) :
  (forall b, hoare (fun w => P w /\ f w = b) (k b) Q) ->
  hoare P (bind (gets f) k) Q.
Proof. intros Hk w Hw. unfold bind, gets. by apply Hk. Qed.

Lemma hoare_read_doc_bind P Q loc (k : Alert -> M A) :
  (forall a, hoare (fun w => P w /\ docs w !! loc = Some a) (k a) Q) ->
  (forall w, P w -> Q w) ->
  hoare P (bind (read_doc loc) k) Q.
Proof.
  intros Hk HPQ w Hw. unfold bind, read_doc.
  destruct (docs w !! loc) as [a|] eqn:Ha; simpl; [by apply Hk | by apply HPQ].
Qed.

End Hoare.

Lemma inv_bind {A B} (I : World -> Prop) (m : M B) (k : B -> M A) :
  hoare I m I -> (forall b, hoare I (k b) I) -> hoare I (bind m k) I.
Proof. intros Hm Hk. by apply (hoare_bind I I I). Qed.

Lemma inv_try_catch {A} (I : World -> Prop) (m : M A) (h : string -> M A) :
  hoare I m I -> (forall e, hoare I (h e) I) -> hoare I (try_catch m h) I.
Proof. intros Hm Hh. by apply (hoare_try_catch I I I). Qed.

Lemma hoare_modify (P Q : World -> Prop) f :
  (forall w, P w -> Q (f w)) -> hoare P (modify f) Q.
Proof. intros H w Hw. by apply H. Qed.

Lemma hoare_when (I : World -> Prop) b m : hoare I m I -> hoare I (when b m) I.
Proof. intros H. destruct b; [done|]. by apply hoare_ret. Qed.

Lemma hoare_for_each {B} (I : World -> Prop) (l : list B) body :
  (forall x, hoare I (body x) I) -> hoare I (for_each l body) I.
Proof.
  intros H. induction l as [|x l IH]; simpl.
  - by apply hoare_ret.
  - apply inv_bind; [apply H | intros _; apply IH].
Qed.

Lemma hoare_update_doc (P Q : World -> Prop) loc f :
  (forall w a, P w -> docs w !! loc = Some a -> Q (set_docs (insert loc (f a)) w)) ->
  (forall w, P w -> Q w) ->
  hoare P (update_doc loc f) Q.
Proof.
  intros Hf HPQ. unfold update_doc. apply hoare_read_doc_bind; [|done].
  intros a. apply hoare_modify. intros w [Hw Ha]. by apply Hf.
Qed.

Lemma hoare_save (P Q : World -> Prop) loc :
  (forall w a, P w -> docs w !! loc = Some a -> Q (set_db (insert (_id a) a) w)) ->
  (forall w, P w -> Q w) ->
  hoare P (save loc) Q.
Proof.
  intros Hf HPQ. unfold save. apply hoare_read_doc_bind; [|done].
  intros a. destruct (validate a).
  - apply hoare_modify. intros w [Hw Ha]. by apply Hf.
  - intros w [Hw Ha]. by apply HPQ.
Qed.

Lemma hoare_read_doc (I : World -> Prop) loc : hoare I (read_doc loc) I.
Proof. intros w Hw. unfold read_doc. by destruct (docs w !! loc). Qed.

(** One step of a proof that a computation maintains an invariant: the rule
    of the construct at the head, a case distinction on a test, or the
    unfolding of a function of the services. *)
Ltac inv_step :=
  lazymatch goal with
  | |- hoare _ (ret _) _ => apply hoare_ret; [done]
  | |- hoare _ (throw _) _ => apply hoare_throw; [done]
  | |- hoare _ (lift _) _ => apply hoare_lift; [done]
  | |- hoare _ (gets _) _ => apply hoare_gets; [done]
  | |- hoare _ (read_doc _) _ => apply hoare_read_doc
  | |- hoare _ (bind _ _) _ => apply inv_bind; [ | intros ?]
  | |- hoare _ (try_catch _ _) _ => apply inv_try_catch; [ | intros ?]
  | |- hoare _ (when _ _) _ => apply hoare_when
  | |- hoare _ (for_each _ _) _ => apply hoare_for_each; intros ?
  | |- hoare _ (modify _) _ => apply hoare_modify
  | |- hoare _ (update_doc _ _) _ => apply hoare_update_doc; [ | done]
  | |- hoare _ (save _) _ => apply hoare_save; [ | done]
  | |- hoare _ (if ?b then _ else _) _ => destruct b
  | |- hoare _ (match ?x with Some _ => _ | None => _ end) _ => destruct x
  | |- hoare _ (match ?x with Return _ => _ | Throw _ => _ end) _ => destruct x
  | |- hoare _ (checkRateLimit _ _ _ _) _ => unfold checkRateLimit
  | |- hoare _ (updateRateLimit _ _ _ _) _ => unfold updateRateLimit
  | |- hoare _ (getCache _ _ _) _ => unfold getCache
  | |- hoare _ (setCache _ _ _ _ _ _) _ => unfold setCache
  | |- hoare _ (console_log _) _ => unfold console_log
  | |- hoare _ (hand_over _ _ _ _ _ _) _ => unfold hand_over
  | |- hoare _ (send _ _ _ _) _ => unfold send
  | |- hoare _ (send_with _ _ ?c _ _) _ => destruct c; cbn [send_with]
  | |- hoare _ (sendEmail _ _ _ _) _ => unfold sendEmail
  | |- hoare _ (sendSMS _ _ _) _ => unfold sendSMS
  | |- hoare _ (sendPushNotification _ _ _) _ => unfold sendPushNotification
  | |- hoare _ (notify_channel _ _ _ _ _ _) _ => unfold notify_channel
  | |- hoare _ (sendAlertNotifications _ _ _ _) _ => unfold sendAlertNotifications
  | |- hoare _ (setTimeout _ _ _) _ => unfold setTimeout
  | |- hoare _ (reset_callback _) _ => unfold reset_callback
  | |- hoare _ (unhandledRejection _) _ => unfold unhandledRejection
  | |- hoare _ (run_timers _) _ => unfold run_timers
  | |- hoare _ (updateAlertPriceHistory _ _ _) _ => unfold updateAlertPriceHistory
  | |- hoare _ (updatePrices _ _) _ => unfold updatePrices
  end.

(** ** Computations that cannot throw *)

Lemma returns_try_catch_log (m : M unit) (h : string -> M unit) :
  (forall e, returns (h e)) -> returns (try_catch m h).
Proof.
  intros Hh w. unfold try_catch.
  destruct (m w) as [[[]|e] w1]; simpl; [by exists tt | apply Hh].
Qed.

Lemma returns_console_log line : returns (console_log line).
Proof. intros w. by exists tt. Qed.

Lemma returns_ret {A} (a : A) : returns (ret a).
Proof. intros w. by exists a. Qed.

Lemma returns_for_each {B} (l : list B) body :
  (forall x, returns (body x)) -> returns (for_each l body).
Proof.
  intros H. induction l as [|x l IH]; intros w; simpl.
  - by exists tt.
  - unfold bind. destruct (H x w) as [[] Hx].
    destruct (body x w) as [r w1]; simpl in Hx; subst r. apply IH.
Qed.

Lemma processAlerts_returns env now : returns (processAlerts env now).
Proof.
  intros w. unfold processAlerts, bind, gets.
  apply returns_for_each. intros loc.
  apply returns_try_catch_log. intros e. apply returns_console_log.
Qed.

Lemma run_timers_returns now : returns (run_timers now).
Proof.
  intros w. unfold run_timers, bind, gets, modify.
  apply returns_for_each. intros t.
  apply returns_try_catch_log. intros e. apply returns_console_log.
Qed.

Lemma perform_returns env act : returns (perform env act).
Proof.
  destruct act as [now|now|now]; simpl.
  - apply returns_try_catch_log. intros e. apply returns_console_log.
  - apply returns_try_catch_log. intros e. apply returns_console_log.
  - apply run_timers_returns.
Qed.

(** ** Running a computation step by step *)

Lemma bind_read_doc {A} loc a (k : Alert -> M A) w :
  docs w !! loc = Some a -> bind (read_doc loc) k w = k a w.
Proof. intros H. unfold bind, read_doc. by rewrite H. Qed.


Lemma bind_gets {A B} (f : World -> A) (k : A -> M B) w :
  bind (gets f) k w = k (f w) w.
Proof. done. Qed.

Lemma bind_modify {B} f (k : unit -> M B) w :
  bind (modify f) k w = k tt (f w).
Proof. done. Qed.

Lemma bind_returned {A B} (m : M A) (k : A -> M B) w x w1 :
  m w = (Return x, w1) -> bind m k w = k x w1.
Proof. intros H. unfold bind. by rewrite H. Qed.

(** ** What the monitor does to a document *)

Section Related.
Variable R : Alert -> Alert -> Prop.
Hypothesis R_refl : forall a, R a a.
Hypothesis R_trans : forall a b c, R a b -> R b c -> R a c.
Hypothesis R_history : forall now p source a, R a (addPriceHistory now p source a).
Hypothesis R_sent : forall c now a, R a (mark_sent c now a).
Hypothesis R_reset : forall a, R a (set_isTriggered false a).
Hypothesis R_trigger : forall now cd a,
  shouldTrigger a now cd = true -> R a (trigger_fields now cd a).

Lemma related_refl w : related R w w.
Proof. intros loc a Ha. by exists a. Qed.

Lemma related_update w0 w loc a a' :
  related R w0 w -> docs w !! loc = Some a -> R a a' ->
  related R w0 (set_docs (insert loc a') w).
Proof.
  intros Hrel Ha Hstep l a0 Ha0. destruct (Hrel l a0 Ha0) as (a1 & Ha1 & Hs1).
  cbn [docs set_docs]. destruct (decide (l = loc)) as [->|Hne].
  - rewrite lookup_insert_eq. exists a'. split; [done|].
    rewrite Ha in Ha1. injection Ha1 as <-. by eapply R_trans.
  - rewrite lookup_insert_ne by done. by exists a1.
Qed.

(** The side conditions of the invariant [related R w0]: a write outside
    [docs], or one of the writes to a document that [R] allows. *)
Ltac related_side :=
  lazymatch goal with
  | |- forall w, related _ _ w -> related _ _ _ => intros ? H; exact H
  | |- forall w a, related _ _ w -> docs w !! _ = Some a -> related _ _ (set_docs _ w) =>
      intros ? ? H Hdoc; apply (related_update _ _ _ _ _ H Hdoc);
      first [ apply R_history | apply R_sent | apply R_reset ]
  | |- forall w a, related _ _ w -> docs w !! _ = Some a -> related _ _ (set_db _ w) =>
      intros ? ? H _; exact H
  end.

Ltac related_auto := repeat first [ related_side | inv_step ].

Lemma sendAlertNotifications_related w0 env now loc cd :
  hoare (related R w0) (sendAlertNotifications env now loc cd) (related R w0).
Proof.
  unfold sendAlertNotifications.
  apply inv_bind; [apply hoare_read_doc | intros a].
  destruct (userId a) as [u|]; [|related_auto].
  apply inv_bind; [related_auto | intros _].
  apply inv_try_catch; [ | intros e; related_auto].
  unfold notify_channel.
  apply inv_bind; [ | intros _].
  { destruct (destination Email a u); related_auto. }
  apply inv_bind; [ | intros _].
  { destruct (destination Sms a u); related_auto. }
  apply inv_bind; [ | intros _].
  { destruct (destination Push a u); related_auto. }
  related_auto.
Qed.

Lemma trigger_related w0 now loc cd a :
  shouldTrigger a now cd = true ->
  hoare (fun w => related R w0 w /\ docs w !! loc = Some a)
        (trigger now loc cd) (related R w0).
Proof.
  intros Hfire. unfold trigger.
  apply (hoare_bind _ (related R w0)); [ | intros _; related_auto | done].
  apply hoare_update_doc.
  - intros w a' [Hrel Ha] Ha'. rewrite Ha in Ha'. injection Ha' as <-.
    apply (related_update _ _ _ a); [done | done |].
    by apply R_trigger.
  - by intros w [Hrel _].
Qed.

Lemma triggerAlert_related w0 env now loc cd a :
  shouldTrigger a now cd = true ->
  hoare (fun w => related R w0 w /\ docs w !! loc = Some a)
        (triggerAlert env now loc cd) (related R w0).
Proof.
  intros Hfire. unfold triggerAlert.
  apply (hoare_try_catch _ (related R w0)); [ | intros e; related_auto | done].
  apply (hoare_bind _ (related R w0)); [by apply trigger_related | intros _ | done].
  apply inv_bind; [apply sendAlertNotifications_related | intros _].
  related_auto.
Qed.

Lemma evaluate_related w0 env now loc sym :
  hoare (related R w0) (evaluate env now loc sym) (related R w0).
Proof.
  unfold evaluate. apply inv_bind; [related_auto | intros [cd|]]; [|related_auto].
  apply inv_bind; [related_auto | intros _].
  apply hoare_read_doc_bind; [|done]. intros a.
  destruct (shouldTrigger a now cd) eqn:Hfire.
  - by apply triggerAlert_related.
  - apply hoare_ret. by intros w [Hrel _].
Qed.

Lemma processAlert_related w0 env now loc :
  hoare (related R w0) (processAlert env now loc) (related R w0).
Proof.
  unfold processAlert.
  apply inv_bind; [apply hoare_read_doc | intros a].
  apply inv_bind; [related_auto | intros [cd|]].
  - apply evaluate_related.
  - destruct (getCurrentPrices env [toLowerCase (symbol a)]) as [fresh|e];
      [|related_auto].
    apply inv_bind; [ | intros _; apply evaluate_related].
    destruct (fresh !! toLowerCase (symbol a)); related_auto.
Qed.

Lemma perform_related w0 env act :
  hoare (related R w0) (perform env act) (related R w0).
Proof.
  destruct act as [now|now|now]; cbn [perform].
  - related_auto.
  - apply inv_try_catch; [ | intros e; related_auto].
    unfold processAlerts. apply inv_bind; [related_auto | intros locs].
    apply hoare_for_each. intros loc.
    apply inv_try_catch; [apply processAlert_related | intros e; related_auto].
  - related_auto.
Qed.

Lemma run_related acts w : related R w (run acts w).
Proof.
  unfold run.
  apply (hoare_for_each (related R w) acts (fun act => perform (fst act) (snd act)));
    [|apply related_refl].
  intros act. apply perform_related.
Qed.
End Related.

(** ** The trigger budget *)

Lemma shouldTrigger_true a now obs :
  shouldTrigger a now obs = true ->
  isActive a = true /\ isTriggered a = false /\ expired a now = false /\
  (inject_Z (triggerCount a) < maxTriggers (metadata a))%Q.
Proof.
  unfold shouldTrigger.
  destruct (isActive a), (isTriggered a); simpl; try discriminate.
  destruct (expired a now); [discriminate|].
  destruct (Qle_bool (maxTriggers (metadata a)) (inject_Z (triggerCount a))) eqn:Hb;
    [discriminate|].
  apply Qle_bool_false in Hb. done.
Qed.

Lemma doc_step_refl a : doc_step a a.
Proof. split; [done | by left]. Qed.



Lemma evolves_refl w : evolves w w.
Proof. intros loc a Ha. exists a. split; [done | apply doc_step_refl]. Qed.





(** The first end-to-end scenario of the specification: no trigger at 44000,
    a trigger at 45250, after which the count is 1 and the one-shot alert has
    left the index.  The e-mail of the alert is not handed to its provider:
    its template cannot be generated. *)
Example scenario_one_shot :
  let w1 := run [(quiet_env, AlertEvaluation 1000)]
                (watching (btc_above 0 1) "btc" (btc_at 44000)) in
  let w2 := run [(quiet_env, AlertEvaluation 31000)]
                (set_priceCache (insert "btc" (btc_at 45250)) w1) in
  (triggerCount <$> docs w1 !! 0%nat) = Some 0 /\
  map_get "a1" (activeAlerts w1) = Some 0%nat /\
  (triggerCount <$> docs w2 !! 0%nat) = Some 1 /\
  map_get "a1" (activeAlerts w2) = None /\
  (via <$> outbox w2) = [Sms; Push].
Proof. vm_compute. repeat split. Qed.
(** ** Notification channels *)




Ltac case_rate_tests :=
  repeat match goal with
         | |- context [rateCache ?w !! ?k] =>
             let entry := fresh "entry" in
             let Hentry := fresh "Hentry" in
             destruct (rateCache w !! k) as [entry|] eqn:Hentry
         | |- context [(?x <? ?y)%Z] => destruct (Z.ltb_spec x y)
         | |- context [(?x <=? ?y)%Z] => destruct (Z.leb_spec x y)
         end.

(** A send function writes the counter of its own channel only, leaves the
    documents alone, and hands over one message unless its provider is not
    configured (a result), its rate limit is exceeded (an exception) or its
    template cannot be generated (a result). *)
Lemma send_with_spec template env c to now w :
  docs (snd (send_with template env c to now w)) = docs w /\
  (forall k, k <> rate_key c to ->
     rateCache (snd (send_with template env c to now w)) !! k = rateCache w !! k) /\
  if negb (configured env c) then
    (exists res, fst (send_with template env c to now w) = Return res) /\
    outbox (snd (send_with template env c to now w)) = outbox w
  else if rate_limited env c to now w then
    (exists e, fst (send_with template env c to now w) = Throw e) /\
    outbox (snd (send_with template env c to now w)) = outbox w
  else if negb (renders c template) then
    (exists res, fst (send_with template env c to now w) = Return res) /\
    outbox (snd (send_with template env c to now w)) = outbox w
  else
    (exists res, fst (send_with template env c to now w) = Return res) /\
    outbox (snd (send_with template env c to now w)) =
      outbox w ++ [mkDelivery c (address c to) (accepted env c)].
Proof.
  unfold rate_limited.
  destruct c; cbn [send_with configured accepted renders address];
    unfold sendEmail, sendSMS, sendPushNotification, checkRateLimit, hand_over,
      updateRateLimit, getCache, setCache;
    try (destruct template as [[]|]; cbn [template_html]);
    repeat match goal with
           | |- context [emailEnabled env] => destruct (emailEnabled env)
           | |- context [smsEnabled env] => destruct (smsEnabled env)
           | |- context [sgMail_send env] => destruct (sgMail_send env)
           | |- context [twilio_create env] => destruct (twilio_create env)
           | |- context [redisAvailable env] => destruct (redisAvailable env)
           end;
    cbn [negb andb];
    unfold bind, gets, modify, ret, throw, console_log;
    cbn [rateLimits window limit];
    case_rate_tests; try lia; cbn.
  all: repeat split; eauto.
  all: try (intros k Hk; cbn; repeat rewrite lookup_insert_ne by done; done).
Qed.







(** With no limit reached and all providers configured, the alert of the
    monitor [watching] reaches the SMS and the push provider, and not the
    e-mail provider. *)
Example email_of_an_alert_is_never_handed_over :
  let cd := btc_at 45250 in
  let w := watching (btc_above 0 1) "btc" cd in
  outbox (snd (sendAlertNotifications quiet_env 1000 0 cd w)) =
    [mkDelivery Sms "+15550100" true; mkDelivery Push "u1" true].
Proof. by vm_compute. Qed.



(** The counter of the e-mail channel is shared by every caller of
    [sendEmail]: a hundred welcome e-mails to the address of the user within
    the hour leave the counter that [email_exhausted] starts from. *)
Example email_limit_is_reached :
  let w := watching (btc_above 0 1) "btc" (btc_at 45250) in
  rateCache (send_many (Some welcome) Email "ada@example.com"
               (replicate 100 (quiet_env, 0)) w) =
  rateCache (email_exhausted (btc_above 0 1) "btc" (btc_at 45250)).
Proof. by vm_compute. Qed.
(** ** The trigger sequence of a one-shot alert *)

Lemma trigger_fields_frame now cd a :
  _id (trigger_fields now cd a) = _id a /\
  metadata (trigger_fields now cd a) = metadata a /\
  type (trigger_fields now cd a) = type a /\
  isActive (trigger_fields now cd a) = isActive a /\
  targetPrice (condition (trigger_fields now cd a)) = targetPrice (condition a) /\
  percentageChange (condition (trigger_fields now cd a)) =
    percentageChange (condition a).
Proof. unfold trigger_fields. by destruct (truthy (price cd)). Qed.

Lemma trigger_fields_status now cd a :
  isTriggered (trigger_fields now cd a) = true /\
  triggerCount (trigger_fields now cd a) = triggerCount a + 1 /\
  lastTriggered (trigger_fields now cd a) = Some now /\
  executionLog (trigger_fields now cd a) =
    executionLog a ++ [mkLogEntry "triggered" now (Some cd) (Some (triggerCount a + 1))].
Proof. unfold trigger_fields. by destruct (truthy (price cd)). Qed.

Lemma trigger_fields_owner now cd a :
  userId (trigger_fields now cd a) = userId a /\
  symbol (trigger_fields now cd a) = symbol a.
Proof. unfold trigger_fields. by destruct (truthy (price cd)). Qed.

Lemma set_notifications_frame n s a1 :
  set_notifications n s = a1 ->
  _id s = _id a1 /\ metadata s = metadata a1 /\ isTriggered s = isTriggered a1 /\
  triggerCount s = triggerCount a1 /\ lastTriggered s = lastTriggered a1 /\
  executionLog s = executionLog a1.
Proof. intros <-. by destruct s. Qed.


(** An alert that fires has the numbers its message interpolates, unless
    one of them is [null]. *)
Lemma generateAlertMessage_fires a now cd :
  shouldTrigger a now cd = true ->
  price cd <> null ->
  change24h cd <> null ->
  targetPrice (condition a) <> null ->
  percentageChange (condition a) <> null ->
  exists msg, generateAlertMessage a cd = Return msg.
Proof.
  intros Hfire Hp Hc Ht Hpct.
  unfold generateAlertMessage, toFixed2.
  revert Hfire. unfold shouldTrigger.
  destruct (negb (isActive a) || isTriggered a); [discriminate|].
  destruct (expired a now); [discriminate|].
  destruct (Qle_bool (maxTriggers (metadata a)) (inject_Z (triggerCount a)));
    [discriminate|].
  unfold js_ge, js_le, Math_abs.
  repeat match goal with
         | |- context [String.eqb (type a) ?k] => destruct (String.eqb (type a) k)
         end;
    try discriminate; eauto.
  - destruct (price cd), (targetPrice (condition a)); simpl; try discriminate; try done;
      eauto.
  - destruct (price cd), (targetPrice (condition a)); simpl; try discriminate; try done;
      eauto.
  - destruct (change24h cd), (percentageChange (condition a)); simpl;
      try discriminate; try done; eauto.
Qed.


Ltac notified_side :=
  lazymatch goal with
  | |- forall w, notified_only _ _ _ _ w -> notified_only _ _ _ _ _ => intros ? H; exact H
  | |- forall w a, notified_only _ _ _ _ w -> docs w !! _ = Some a ->
                   notified_only _ _ _ _ (set_docs _ w) =>
      let Hdoc := fresh "Hdoc" in
      intros ? ? ((a' & Ha' & Hcore) & Hdb & Hidx) Hdoc;
      rewrite Ha' in Hdoc; injection Hdoc as <-;
      split; [ eexists; split; [ apply lookup_insert_eq | exact Hcore ]
             | split; [ exact Hdb | exact Hidx ] ]
  | |- forall w a, notified_only _ _ _ _ w -> docs w !! _ = Some a ->
                   notified_only _ _ _ _ (set_db _ w) =>
      let Hdoc := fresh "Hdoc" in
      intros ? ? ((a' & Ha' & Hcore) & Hdb & Hidx) Hdoc;
      rewrite Ha' in Hdoc; injection Hdoc as <-;
      split; [ eexists; split; [ exact Ha' | exact Hcore ]
             | split; [ | exact Hidx ] ];
      exists a'; split; [ | exact Hcore ];
      rewrite <- Hcore at 1; apply lookup_insert_eq
  | |- forall w, stamped_only _ _ _ _ w -> stamped_only _ _ _ _ _ => intros ? H; exact H
  | |- forall w a, stamped_only _ _ _ _ w -> docs w !! _ = Some a ->
                   stamped_only _ _ _ _ (set_docs _ w) =>
      let Hdoc := fresh "Hdoc" in
      intros ? ? ((a' & Ha' & Hcore) & Hidx) Hdoc;
      rewrite Ha' in Hdoc; injection Hdoc as <-;
      split; [ eexists; split; [ apply lookup_insert_eq | exact Hcore ] | exact Hidx ]
  | |- forall w a, stamped_only _ _ _ _ w -> docs w !! _ = Some a ->
                   stamped_only _ _ _ _ (set_db _ w) =>
      intros ? ? H _; exact H
  end.

Ltac notified_auto := repeat first [ notified_side | inv_step ].


Lemma sendAlertNotifications_stamped_only a1 loc idx ts env now cd :
  hoare (stamped_only a1 loc idx ts) (sendAlertNotifications env now loc cd)
        (stamped_only a1 loc idx ts).
Proof.
  unfold sendAlertNotifications.
  apply inv_bind; [apply hoare_read_doc | intros a].
  destruct (userId a) as [u|]; [|notified_auto].
  apply inv_bind; [notified_auto | intros _].
  apply inv_try_catch; [ | intros e; notified_auto].
  unfold notify_channel.
  apply inv_bind; [ | intros _].
  { destruct (destination Email a u); notified_auto. }
  apply inv_bind; [ | intros _].
  { destruct (destination Sms a u); notified_auto. }
  apply inv_bind; [ | intros _].
  { destruct (destination Push a u); notified_auto. }
  notified_auto.
Qed.

Lemma triggered_world_fields now loc cd a w :
  docs (triggered_world now loc cd a w) !! loc = Some (trigger_fields now cd a) /\
  activeAlerts (triggered_world now loc cd a w) = activeAlerts w /\
  db (triggered_world now loc cd a w) = db w /\
  timers (triggered_world now loc cd a w) =
    (if 0 <? repeatInterval (metadata a)
     then insert_timer (now + timer_delay (repeatInterval (metadata a) * 60 * 1000), loc)
            (timers w)
     else timers w).
Proof.
  unfold triggered_world.
  destruct (0 <? repeatInterval (metadata a)); cbn; by rewrite lookup_insert_eq.
Qed.

(** The world after [trigger]: the document is rewritten, the reset is armed
    when the alert repeats, and the document is saved when the validators of
    the schema accept it; otherwise [trigger] throws what [save] throws. *)
Lemma trigger_run now loc cd w a :
  docs w !! loc = Some a ->
  trigger now loc cd w =
    if validate (trigger_fields now cd a)
    then (Return tt,
          set_db (insert (_id a) (trigger_fields now cd a)) (triggered_world now loc cd a w))
    else (Throw "ValidationError: Alert validation failed",
          triggered_world now loc cd a w).
Proof.
  intros Ha. destruct (trigger_fields_frame now cd a) as (Hid & Hmeta & _).
  unfold triggered_world.
  unfold trigger, update_doc, save, setTimeout, when, bind, read_doc, modify, ret, throw.
  rewrite Ha. cbn [docs set_docs]. rewrite lookup_insert_eq, Hmeta.
  destruct (0 <? repeatInterval (metadata a));
    cbn [docs set_docs set_timers]; rewrite ?lookup_insert_eq, Hid;
    by destruct (validate (trigger_fields now cd a)).
Qed.

(** The documents in memory after the trigger sequence of an alert, whatever
    becomes of the store and of the notification: the sequence returns; the
    document is what [trigger] made of it up to its sent flags; the timers are
    those [trigger] left; the index is as before, or without the alert. *)
Lemma triggerAlert_memory env now loc cd w a :
  docs w !! loc = Some a ->
  let a1 := trigger_fields now cd a in
  let w' := snd (triggerAlert env now loc cd w) in
  fst (triggerAlert env now loc cd w) = Return tt /\
  (exists a', docs w' !! loc = Some a' /\ set_notifications (notifications a1) a' = a1) /\
  timers w' = timers (triggered_world now loc cd a w) /\
  (activeAlerts w' = activeAlerts w \/
   activeAlerts w' = map_delete (_id a) (activeAlerts w)).
Proof.
  intros Ha. cbn zeta.
  destruct (triggered_world_fields now loc cd a w) as (Hdoc & Hidx & _ & _).
  destruct (trigger_fields_frame now cd a) as (Hid & _).
  pose proof (trigger_run now loc cd w a Ha) as Htrigger.
  set (a1 := trigger_fields now cd a) in *.
  set (wt := triggered_world now loc cd a w) in *.
  assert (Hcore1 : set_notifications (notifications a1) a1 = a1) by (by destruct a1).
  assert (Hres : exists w',
    triggerAlert env now loc cd w = (Return tt, w') /\
    stamped_only a1 loc (activeAlerts w') (timers wt) w' /\
    (activeAlerts w' = activeAlerts w \/
     activeAlerts w' = map_delete (_id a) (activeAlerts w))).
  { unfold triggerAlert, try_catch.
    destruct (validate a1).
    - rewrite (bind_returned _ _ _ tt _ Htrigger).
      set (ws0 := set_db (insert (_id a) a1) wt).
      assert (H0 : stamped_only a1 loc (activeAlerts w) (timers wt) ws0).
      { split; [by exists a1 | by split]. }
      pose proof (sendAlertNotifications_stamped_only a1 loc (activeAlerts w) (timers wt)
                    env now cd ws0 H0) as Hs.
      destruct (sendAlertNotifications env now loc cd ws0) as [[[]|e] ws] eqn:Hsend;
        cbn [fst snd] in Hs; destruct Hs as ((a2 & Ha2 & Hcore2) & Hidx2 & Hts2).
      + rewrite (bind_returned _ _ _ tt ws Hsend).
        rewrite (bind_read_doc loc a2) by done.
        destruct (set_notifications_frame _ _ _ Hcore2) as (Hi2 & _).
        destruct (repeatInterval (metadata a2) =? 0); cbn.
        * eexists. split; [reflexivity|]. split.
          -- split; [by exists a2 | by split].
          -- right. cbn. by rewrite Hi2, Hid, Hidx2.
        * eexists. split; [reflexivity|]. split.
          -- split; [by exists a2 | by split].
          -- by left.
      + unfold bind. rewrite Hsend. cbn.
        eexists. split; [reflexivity|]. split.
        * split; [by exists a2 | by split].
        * by left.
    - unfold bind. rewrite Htrigger. cbn.
      eexists. split; [reflexivity|]. split.
      + split; [by exists a1 | by split].
      + by left. }
  destruct Hres as (w' & -> & (Hdoc' & _ & Hts') & Hidx').
  cbn [fst snd]. by repeat split.
Qed.


Lemma shouldTrigger_addPriceHistory now p source a t obs :
  shouldTrigger (addPriceHistory now p source a) t obs = shouldTrigger a t obs.
Proof. done. Qed.

(** [updateAlertPriceHistory] returns; the document has the new entry, and
    the store has the document when the validators accept it; otherwise the
    error of [save] is logged. *)
Lemma updateAlertPriceHistory_run now loc p w a :
  docs w !! loc = Some a ->
  let a1 := addPriceHistory now p "coingecko" a in
  updateAlertPriceHistory now loc p w =
    (Return tt,
     if validate a1
     then set_db (insert (_id a) a1) (set_docs (insert loc a1) w)
     else set_console
            (fun c => c ++ [String.append "Error updating price history: "
                              "ValidationError: Alert validation failed"])
            (set_docs (insert loc a1) w)).
Proof.
  intros Ha. cbn zeta.
  unfold updateAlertPriceHistory, try_catch, update_doc, save, bind, read_doc, modify,
    throw, console_log.
  rewrite Ha. cbn [docs set_docs]. rewrite lookup_insert_eq.
  by destruct (validate (addPriceHistory now p "coingecko" a)).
Qed.

Lemma updateAlertPriceHistory_memory now loc p w a :
  docs w !! loc = Some a ->
  exists w1,
    updateAlertPriceHistory now loc p w = (Return tt, w1) /\
    docs w1 = <[loc := addPriceHistory now p "coingecko" a]> (docs w) /\
    priceCache w1 = priceCache w /\ activeAlerts w1 = activeAlerts w /\
    timers w1 = timers w /\ outbox w1 = outbox w.
Proof.
  intros Ha. rewrite (updateAlertPriceHistory_run now loc p w a Ha).
  eexists. split; [reflexivity|].
  by destruct (validate (addPriceHistory now p "coingecko" a)).
Qed.

(** The evaluation of an alert against the cached observation of its
    symbol: the observed price goes to the history of the document; then the
    alert is triggered when the evaluator says so, and left alone
    otherwise. *)
Lemma processAlert_cached env now loc w a obs :
  docs w !! loc = Some a ->
  priceCache w !! toLowerCase (symbol a) = Some obs ->
  exists w1,
    updateAlertPriceHistory now loc (price obs) w = (Return tt, w1) /\
    docs w1 !! loc = Some (addPriceHistory now (price obs) "coingecko" a) /\
    processAlert env now loc w =
      if shouldTrigger a now obs then triggerAlert env now loc obs w1
      else (Return tt, w1).
Proof.
  intros Ha Hobs.
  destruct (updateAlertPriceHistory_memory now loc (price obs) w a Ha)
    as (w1 & Hrun & Hdocs & _).
  exists w1. split; [done|].
  assert (Hdoc1 : docs w1 !! loc = Some (addPriceHistory now (price obs) "coingecko" a)).
  { rewrite Hdocs. apply lookup_insert_eq. }
  split; [done|].
  unfold processAlert.
  rewrite (bind_read_doc loc a) by done. rewrite bind_gets, Hobs.
  unfold evaluate. rewrite bind_gets, Hobs.
  rewrite (bind_returned _ _ _ tt _ Hrun).
  rewrite (bind_read_doc loc _ _ w1 Hdoc1).
  rewrite shouldTrigger_addPriceHistory. by destruct (shouldTrigger a now obs).
Qed.




(** The alert of the monitor [watching] passes the validators after its
    trigger and its message can be built: it leaves the index and is stored
    triggered. *)
Example one_shot_scenario_removed :
  let a := btc_above 0 1 in
  let cd := btc_at 45250 in
  let w' := snd (triggerAlert quiet_env 1000 0 cd (watching a "btc" cd)) in
  validate (trigger_fields 1000 cd a) = true /\
  generateAlertMessage a cd = Return (has_reached "BTC" (num 45250) (num 45000)) /\
  map_get "a1" (activeAlerts w') = None /\
  (isTriggered <$> db w' !! "a1") = Some true.
Proof. by vm_compute. Qed.


(** A one-shot alert also stays in the index when [trigger] cannot save it:
    on the price -1 a price_below alert fires, [trigger] writes -1 to
    [condition.currentPrice], the validator of that field rejects the
    document, and the store keeps the alert as it was, not triggered. *)
Example rejected_save_stays_in_index :
  let cd := btc_at (-1) in
  let w' := snd (triggerAlert quiet_env 1000 0 cd (watching btc_below "btc" cd)) in
  shouldTrigger btc_below 1000 cd = true /\
  map_get "a1" (activeAlerts w') = Some 0%nat /\
  (isTriggered <$> docs w' !! 0%nat) = Some true /\
  (isTriggered <$> db w' !! "a1") = Some false /\
  outbox w' = [].
Proof. by vm_compute. Qed.
(** ** A failing price source *)

Lemma monitored_symbols_nonempty w : monitored_symbols w <> [] -> activeAlerts w <> [].
Proof. intros H Hnil. apply H. unfold monitored_symbols. by rewrite Hnil. Qed.

Lemma addPriceHistory_last now p source a :
  last (priceHistory (addPriceHistory now p source a)) = Some (mkPriceEntry p now source).
Proof.
  rewrite addPriceHistory_history. unfold slice_last.
  set (l := priceHistory a ++ [mkPriceEntry p now source]).
  assert (Hlen : (1 <= length l)%nat) by (unfold l; rewrite length_app; cbn; lia).
  rewrite last_lookup, length_drop, lookup_drop.
  replace (length l - 100 + Init.Nat.pred (length l - (length l - 100)))%nat
    with (Init.Nat.pred (length l)) by lia.
  rewrite <- last_lookup. apply last_snoc.
Qed.

(** The evaluation of another document leaves document [loc] and the cached
    observation of [sym] alone. *)
Section Bystander.
Variables (loc : nat) (x : Alert) (sym : string) (obs : PriceData).

Ltac bystander_side :=
  lazymatch goal with
  | |- forall w a, untouched _ _ _ _ w -> docs w !! _ = Some a ->
                   untouched _ _ _ _ (set_docs _ w) =>
      intros ? ? [Hd Hc] _; split; [cbn; by rewrite lookup_insert_ne | exact Hc]
  | |- forall w a, untouched _ _ _ _ w -> docs w !! _ = Some a ->
                   untouched _ _ _ _ (set_db _ w) =>
      intros ? ? H _; exact H
  | |- forall w, untouched _ _ _ _ w -> untouched _ _ _ _ _ => intros ? H; exact H
  end.

Ltac bystander_auto := repeat first [ bystander_side | inv_step ].

Lemma sendAlertNotifications_untouched env now l cd :
  l <> loc ->
  hoare (untouched loc x sym obs) (sendAlertNotifications env now l cd)
        (untouched loc x sym obs).
Proof.
  intros Hne. unfold sendAlertNotifications.
  apply inv_bind; [apply hoare_read_doc | intros a].
  destruct (userId a) as [u|]; [|bystander_auto].
  apply inv_bind; [bystander_auto | intros _].
  apply inv_try_catch; [ | intros e; bystander_auto].
  unfold notify_channel.
  apply inv_bind; [ | intros _].
  { destruct (destination Email a u); bystander_auto. }
  apply inv_bind; [ | intros _].
  { destruct (destination Sms a u); bystander_auto. }
  apply inv_bind; [ | intros _].
  { destruct (destination Push a u); bystander_auto. }
  bystander_auto.
Qed.

Lemma triggerAlert_untouched env now l cd :
  l <> loc ->
  hoare (untouched loc x sym obs) (triggerAlert env now l cd) (untouched loc x sym obs).
Proof.
  intros Hne. unfold triggerAlert, trigger.
  apply inv_try_catch; [ | intros e; bystander_auto].
  apply inv_bind; [bystander_auto | intros _].
  apply inv_bind; [by apply sendAlertNotifications_untouched | intros _].
  bystander_auto.
Qed.

Lemma evaluate_untouched env now l sym' :
  l <> loc ->
  hoare (untouched loc x sym obs) (evaluate env now l sym') (untouched loc x sym obs).
Proof.
  intros Hne. unfold evaluate.
  apply inv_bind; [bystander_auto | intros [cd|]]; [|bystander_auto].
  apply inv_bind; [bystander_auto | intros _].
  apply inv_bind; [apply hoare_read_doc | intros a].
  destruct (shouldTrigger a now cd); [by apply triggerAlert_untouched | bystander_auto].
Qed.

Lemma processAlert_untouched env now l :
  l <> loc ->
  hoare (untouched loc x sym obs) (processAlert env now l) (untouched loc x sym obs).
Proof.
  intros Hne. unfold processAlert.
  apply inv_bind; [apply hoare_read_doc | intros a]. cbn zeta.
  apply hoare_gets_bind. intros [cd|].
  - apply (hoare_conseq (untouched loc x sym obs) _ (untouched loc x sym obs));
      [by intros w [H _] | done | by apply evaluate_untouched].
  - destruct (getCurrentPrices env [toLowerCase (symbol a)]) as [fresh|e].
    + apply (hoare_bind _ (untouched loc x sym obs));
        [ | intros _; by apply evaluate_untouched | done].
      destruct (fresh !! toLowerCase (symbol a)) as [data|].
      * apply hoare_modify. intros w [[Hd Hc] Hmiss]. split; [done|].
        cbn [priceCache set_priceCache]. rewrite lookup_insert_ne; [done|].
        intros Heq. rewrite Heq in Hmiss. congruence.
      * apply hoare_ret. by intros w [H _].
    + apply hoare_modify. by intros w [H _].
Qed.
End Bystander.

(** The trigger sequence does not write to the price cache. *)
Lemma triggerAlert_cache env now l cd sym obs :
  hoare (fun w => priceCache w !! sym = Some obs) (triggerAlert env now l cd)
        (fun w => priceCache w !! sym = Some obs).
Proof.
  unfold triggerAlert, trigger, sendAlertNotifications, notify_channel.
  repeat first
    [ inv_step
    | lazymatch goal with
      | |- forall w, _ -> _ => by intros
      | |- forall w a, _ -> _ -> _ => by intros
      end ].
Qed.

(** One step of an evaluation cycle, seen from document [loc]: until the
    cycle reaches it the document is [a]; from then on it is evaluated
    against [obs]. *)
Lemma cycle_step env now loc a obs l w :
  priceCache w !! toLowerCase (symbol a) = Some obs ->
  let body := try_catch (processAlert env now l)
                (fun e => console_log (String.append "Error processing alert: " e)) in
  (docs w !! loc = Some a ->
   priceCache (snd (body w)) !! toLowerCase (symbol a) = Some obs /\
   if decide (l = loc)
   then exists a', docs (snd (body w)) !! loc = Some a' /\ evaluated_against a now obs a'
   else docs (snd (body w)) !! loc = Some a) /\
  ((exists a', docs w !! loc = Some a' /\ evaluated_against a now obs a') ->
   priceCache (snd (body w)) !! toLowerCase (symbol a) = Some obs /\
   exists a', docs (snd (body w)) !! loc = Some a' /\ evaluated_against a now obs a').
Proof.
  intros Hobs body.
  assert (Hother : forall x, l <> loc -> docs w !! loc = Some x ->
            untouched loc x (toLowerCase (symbol a)) obs (snd (body w))).
  { intros x Hne Hx.
    apply (inv_try_catch (untouched loc x (toLowerCase (symbol a)) obs)
             (processAlert env now l)
             (fun e => console_log (String.append "Error processing alert: " e))).
    - by apply processAlert_untouched.
    - intros e. apply hoare_modify. by intros w0 H.
    - by split. }
  assert (Hself : forall x, l = loc -> docs w !! loc = Some x -> symbol x = symbol a ->
            priceCache (snd (body w)) !! toLowerCase (symbol a) = Some obs /\
            exists a', docs (snd (body w)) !! loc = Some a' /\
              symbol a' = symbol a /\
              last (priceHistory a') = Some (mkPriceEntry (price obs) now "coingecko") /\
              if shouldTrigger x now obs
              then isTriggered a' = true /\ triggerCount a' = triggerCount x + 1
              else isTriggered a' = isTriggered x /\ triggerCount a' = triggerCount x /\
                   shouldTrigger a' now obs = false).
  { intros x -> Hx Hsym. subst body. unfold try_catch.
    assert (Hobs' : priceCache w !! toLowerCase (symbol x) = Some obs) by by rewrite Hsym.
    destruct (processAlert_cached env now loc w x obs Hx Hobs') as (w1 & Hrun & Hdoc1 & ->).
    destruct (updateAlertPriceHistory_memory now loc (price obs) w x Hx)
      as (w1' & Hrun' & _ & Hcache1 & _).
    rewrite Hrun in Hrun'. injection Hrun' as <-.
    set (x1 := addPriceHistory now (price obs) "coingecko" x) in *.
    destruct (shouldTrigger x now obs) eqn:Hfire.
    - destruct (triggerAlert_memory env now loc obs w1 x1 Hdoc1)
        as (Hret & (a2 & Ha2 & Hcore2) & _).
      pose proof (triggerAlert_cache env now loc obs (toLowerCase (symbol a)) obs w1) as Hc.
      destruct (triggerAlert env now loc obs w1) as [r w2]. cbn [fst snd] in *. subst r.
      split; [apply Hc; by rewrite Hcache1|].
      destruct (set_notifications_frame _ _ _ Hcore2) as (_ & _ & Ht2 & Hc2 & _).
      destruct (trigger_fields_status now obs x1) as (Htrig & Hcount & _).
      destruct (trigger_fields_owner now obs x1) as [_ Hs1].
      exists a2. split; [done|].
      assert (Hfields : symbol a2 = symbol (trigger_fields now obs x1) /\
                        priceHistory a2 = priceHistory x1).
      { assert (Hh : priceHistory (trigger_fields now obs x1) = priceHistory x1)
          by (unfold trigger_fields; by destruct (truthy (price obs))).
        rewrite <- Hh, <- Hcore2. by destruct a2. }
      destruct Hfields as [Hs2 Hh2].
      split; [by rewrite Hs2, Hs1|]. split; [rewrite Hh2; apply addPriceHistory_last|].
      by rewrite Ht2, Hc2, Htrig, Hcount.
    - cbn [fst snd]. split; [by rewrite Hcache1|].
      exists x1. split; [done|]. split; [done|].
      split; [apply addPriceHistory_last|]. done. }
  split.
  - intros Ha. destruct (decide (l = loc)) as [Heq|Hne].
    + destruct (Hself a Heq Ha eq_refl) as (Hc & a' & Ha' & Hs & Hlast & Hres).
      split; [done|]. exists a'. split; [done|]. split; [done|]. split; [done|].
      destruct (shouldTrigger a now obs) eqn:Hfire.
      * split; [|done]. unfold shouldTrigger. destruct Hres as [-> _].
        by rewrite orb_true_r.
      * destruct Hres as (Ht & Hc' & Hq). by split.
    + destruct (Hother a Hne Ha) as [Hd Hc]. by split.
  - intros (a' & Ha' & Hs & Hlast & Hquiet & Hres).
    destruct (decide (l = loc)) as [Heq|Hne].
    + destruct (Hself a' Heq Ha' Hs) as (Hc & a'' & Ha'' & Hs'' & Hlast'' & Hres'').
      split; [done|]. exists a''. split; [done|]. split; [done|]. split; [done|].
      rewrite Hquiet in Hres''. destruct Hres'' as (Ht & Hc'' & Hq).
      split; [done|]. rewrite Ht, Hc''. exact Hres.
    + destruct (Hother a' Hne Ha') as [Hd Hc]. split; [done|].
      exists a'. split; [done|]. by repeat split.
Qed.

(** An evaluation cycle over the documents [locs], seen from document
    [loc]. *)
Lemma cycle_loop env now loc a obs locs : forall w,
  priceCache w !! toLowerCase (symbol a) = Some obs ->
  let w' := snd (for_each locs (fun l =>
                   try_catch (processAlert env now l)
                     (fun e => console_log (String.append "Error processing alert: " e))) w) in
  (docs w !! loc = Some a -> loc ∈ locs ->
   exists a', docs w' !! loc = Some a' /\ evaluated_against a now obs a') /\
  ((exists a', docs w !! loc = Some a' /\ evaluated_against a now obs a') ->
   exists a', docs w' !! loc = Some a' /\ evaluated_against a now obs a').
Proof.
  induction locs as [|l locs IH]; intros w Hobs; cbn zeta.
  - split; [|done]. intros _ Hin. by apply elem_of_nil in Hin.
  - destruct (cycle_step env now loc a obs l w Hobs) as [Hfresh Hdone].
    cbn zeta in Hfresh, Hdone.
    assert (Hrun : forall body : nat -> M unit,
              (forall l0 w0, exists w1, body l0 w0 = (Return tt, w1)) ->
              snd (for_each (l :: locs) body w) = snd (for_each locs body (snd (body l w)))).
    { intros body Hbody. cbn [for_each]. unfold bind.
      destruct (Hbody l w) as [w1 ->]. done. }
    rewrite Hrun.
    2:{ intros l0 w0. unfold try_catch, console_log, modify.
        destruct (processAlert env now l0 w0) as [[[]|e] w1]; eauto. }
    split.
    + intros Ha Hin. destruct (Hfresh Ha) as [Hc Hd].
      destruct (IH _ Hc) as [IHfresh IHdone].
      destruct (decide (l = loc)) as [->|Hne]; [by apply IHdone|].
      apply IHfresh; [done|]. apply elem_of_cons in Hin as [?|?]; [congruence | done].
    + intros Hd. destruct (Hdone Hd) as [Hc Hd'].
      destruct (IH _ Hc) as [_ IHdone]. by apply IHdone.
Qed.

(** C8. When the batched request of a price-refresh cycle fails, the cycle
    returns normally; the world it leaves is the one it found with one more
    line on the error log, so the price cache still answers with the last
    observation written for every symbol.  The next evaluation cycle runs to
    its end without throwing, and it reads the retained observations: every
    document of the index whose symbol has a cached observation gets the
    price of that observation as the last entry of its history, and is
    triggered, once, exactly when the evaluator answers true for it on that
    observation. *)
Theorem updatePrices_source_failure env now w e :
  monitored_symbols w <> [] ->
  getCurrentPrices env (monitored_symbols w) = Throw e ->
  let w' := snd (updatePrices env now w) in
  fst (updatePrices env now w) = Return tt /\
  w' = set_console (fun c => c ++ [String.append "Error updating prices: " e]) w /\
  (forall sym, priceCache w' !! sym = priceCache w !! sym) /\
  forall env' now',
    fst (processAlerts env' now' w') = Return tt /\
    forall loc a obs,
      loc ∈ map_values (activeAlerts w) ->
      docs w !! loc = Some a ->
      priceCache w !! toLowerCase (symbol a) = Some obs ->
      exists a',
        docs (snd (processAlerts env' now' w')) !! loc = Some a' /\
        evaluated_against a now' obs a'.
Proof.
  intros Hsyms Hfail w'.
  assert (Hrun : updatePrices env now w =
    (Return tt, set_console (fun c => c ++ [String.append "Error updating prices: " e]) w)).
  { unfold updatePrices, bind, gets, try_catch, lift, console_log, modify.
    apply monitored_symbols_nonempty in Hsyms as Hidx.
    destruct (activeAlerts w) as [|entry rest] eqn:Hact; [done|]. simpl.
    destruct (monitored_symbols w) as [|s0 ss] eqn:Hs; [done|]. simpl.
    by rewrite Hfail. }
  subst w'. rewrite Hrun. cbn [fst snd]. split; [done|]. split; [done|]. split; [done|].
  intros env' now'. split.
  - destruct (processAlerts_returns env' now'
      (set_console (fun c => c ++ [String.append "Error updating prices: " e]) w))
      as [[] H]. exact H.
  - intros loc a obs Hin Ha Hobs.
    unfold processAlerts. rewrite bind_gets.
    destruct (cycle_loop env' now' loc a obs (map_values (activeAlerts w))
                (set_console (fun c => c ++ [String.append "Error updating prices: " e]) w)
                Hobs) as [Hfresh _].
    by apply Hfresh.
Qed.

Lemma updatePrices_source_failure_witness :
  let w := watching (btc_above 0 1) "btc" (btc_at 45250) in
  let w' := snd (updatePrices quiet_env 2000 w) in
  fst (updatePrices quiet_env 2000 w) = Return tt /\
  w' = set_console
         (fun c => c ++ [String.append "Error updating prices: "
                                       "Failed to fetch current prices"]) w /\
  (forall sym, priceCache w' !! sym = priceCache w !! sym) /\
  forall env' now',
    fst (processAlerts env' now' w') = Return tt /\
    forall loc a obs,
      loc ∈ map_values (activeAlerts w) ->
      docs w !! loc = Some a ->
      priceCache w !! toLowerCase (symbol a) = Some obs ->
      exists a',
        docs (snd (processAlerts env' now' w')) !! loc = Some a' /\
        evaluated_against a now' obs a'.
Proof.
  apply (updatePrices_source_failure quiet_env 2000
           (watching (btc_above 0 1) "btc" (btc_at 45250))
           "Failed to fetch current prices").
  - vm_compute. discriminate.
  - reflexivity.
Defined.

(** After a failed refresh the alert of the monitor [watching] is triggered
    by the next evaluation cycle on the observation the cache has kept. *)
Example stale_observation_triggers :
  let w := watching (btc_above 0 1) "btc" (btc_at 45250) in
  let w' := snd (updatePrices quiet_env 2000 w) in
  let w'' := snd (processAlerts quiet_env 5000 w') in
  priceCache w' !! "btc" = Some (btc_at 45250) /\
  (triggerCount <$> docs w'' !! 0%nat) = Some 1 /\
  (priceHistory <$> docs w'' !! 0%nat) = Some [mkPriceEntry (num 45250) 5000 "coingecko"].
Proof. by vm_compute. Qed.
(** ** Repeating alerts: the reset timer *)



Section Armed.
Variables (loc : nat) (a1 : Alert) (due : Z).
Hypothesis Htriggered : isTriggered a1 = true.















End Armed.



Lemma same_rule_trans a b c : same_rule a b -> same_rule b c -> same_rule a c.
Proof. unfold same_rule. intuition congruence. Qed.




Lemma kind_table_same_rule a b obs : same_rule a b -> kind_table a obs <-> kind_table b obs.
Proof.
  intros (Hty & Ht & Hp & Hv & Hm & _). unfold kind_table.
  by rewrite Hty, Ht, Hp, Hv, Hm.
Qed.






(** With a budget of three triggers the same alert does fire a second time
    after its reset. *)
Example rearmed_alert_retriggers :
  retriggers_after_reset quiet_env (btc_above 60 3) "btc" (btc_at 45250) 0.
Proof.
  eexists. split; [vm_compute; reflexivity | reflexivity].
Qed.


(** * More properties of the code *)

(** ** The status shown for an alert and the evaluator *)

Lemma expired_false a now :
  expired a now = false <-> (forall e, expiresAt (metadata a) = Some e -> now <= e).
Proof.
  unfold expired. destruct (expiresAt (metadata a)) as [e|].
  - destruct (Z.ltb_spec e now); split; try done.
    + intros H'. specialize (H' e eq_refl). lia.
    + intros _ e' [= <-]. lia.
  - split; [by intros _ e' [=] | done].
Qed.

Lemma status_active a now :
  status a now = "active" <->
  isActive a = true /\ isTriggered a = false /\ expired a now = false.
Proof.
  unfold status.
  destruct (isActive a), (isTriggered a), (expired a now); cbn; split;
    try done; intros (? & ? & ?); done.
Qed.

Lemma shouldTrigger_iff a now obs :
  shouldTrigger a now obs = true <->
  isActive a = true /\ isTriggered a = false /\ expired a now = false /\
  (inject_Z (triggerCount a) < maxTriggers (metadata a))%Q /\ kind_table a obs.
Proof.
  split.
  - intros Hfire. destruct (shouldTrigger_true a now obs Hfire) as (Ha & Ht & He & Hb).
    assert (Hpre : passes_preconditions a now).
    { split; [done|]. split; [done|]. split; [by apply expired_false | done]. }
    rewrite (preconditions_fall_through a now obs Hpre) in Hfire.
    apply kind_switch_table in Hfire. done.
  - intros (Ha & Ht & He & Hb & Hk).
    assert (Hpre : passes_preconditions a now).
    { split; [done|]. split; [done|]. split; [by apply expired_false | done]. }
    rewrite (preconditions_fall_through a now obs Hpre).
    by apply kind_switch_table.
Qed.

(** X1. An alert triggers exactly when its status reads "active", its trigger
    count is below its budget and the row of the kind table for its type
    holds; the status alone does not tell whether the budget is spent. *)
Theorem shouldTrigger_iff_active_with_budget a now obs :
  shouldTrigger a now obs = true <->
  status a now = "active" /\
  (inject_Z (triggerCount a) < maxTriggers (metadata a))%Q /\
  kind_table a obs.
Proof. rewrite status_active, shouldTrigger_iff. tauto. Qed.

(** ** Phone numbers *)

Lemma remove_non_digits_all s : all_digits (remove_non_digits s) = true.
Proof.
  induction s as [|c s IH]; [done|]. cbn.
  destruct (is_digit c) eqn:Hc; [|done]. cbn. by rewrite Hc.
Qed.

Lemma remove_non_digits_id d : all_digits d = true -> remove_non_digits d = d.
Proof.
  induction d as [|c d IH]; [done|]. cbn.
  destruct (is_digit c); [|done]. cbn. intros H. by rewrite IH.
Qed.

Lemma digits_no_plus d : all_digits d = true -> String.prefix "+" d = false.
Proof.
  destruct d as [|c d]; [done|]. intros H. cbn [all_digits] in H.
  cbn [String.prefix].
  destruct (Ascii.ascii_dec "+"%char c) as [<-|Hne]; [|done].
  by change (is_digit "+"%char) with false in H.
Qed.

(** The three results of [formatPhoneNumber], by the digits of its input. *)
Lemma formatPhoneNumber_cases p :
  let d := remove_non_digits p in
  formatPhoneNumber p =
    if (String.length d =? 10)%nat then String "+"%char (String "1"%char d) else String "+"%char d.
Proof.
  cbn zeta. unfold formatPhoneNumber.
  destruct (String.length (remove_non_digits p) =? 10)%nat; [done|].
  destruct ((String.length (remove_non_digits p) =? 11)%nat
            && String.prefix "1" (remove_non_digits p)); [done|].
  by rewrite (digits_no_plus _ (remove_non_digits_all p)).
Qed.

(** X2. Whatever it is given, [formatPhoneNumber] returns a plus sign
    followed by decimal digits only: the digits of its input, after the
    country code 1 when there are ten of them.  Its last branch, which
    returns the input as it is, is never taken. *)
Theorem formatPhoneNumber_shape p :
  exists d,
    formatPhoneNumber p = String "+"%char d /\
    all_digits d = true /\
    d = (if (String.length (remove_non_digits p) =? 10)%nat
         then String "1"%char (remove_non_digits p) else remove_non_digits p).
Proof.
  rewrite formatPhoneNumber_cases. cbn zeta.
  pose proof (remove_non_digits_all p) as Hd.
  destruct (String.length (remove_non_digits p) =? 10)%nat; eexists; eauto.
Qed.

Lemma prefix_first c d : String.prefix (String c EmptyString) (String c d) = true.
Proof.
  cbn [String.prefix]. destruct (Ascii.ascii_dec c c); [by destruct d | done].
Qed.

(** X3. Formatting a formatted phone number changes nothing. *)
Theorem formatPhoneNumber_idempotent p :
  formatPhoneNumber (formatPhoneNumber p) = formatPhoneNumber p.
Proof.
  pose proof (remove_non_digits_all p) as Hd.
  rewrite (formatPhoneNumber_cases p). cbn zeta.
  set (d := remove_non_digits p) in *.
  destruct (String.length d =? 10)%nat eqn:Hlen.
  - apply Nat.eqb_eq in Hlen.
    unfold formatPhoneNumber. cbn [remove_non_digits]. cbn [is_digit].
    change (is_digit "+"%char) with false. change (is_digit "1"%char) with true. cbn iota.
    rewrite (remove_non_digits_id d Hd). cbn [String.length]. rewrite Hlen.
    by rewrite prefix_first.
  - rewrite formatPhoneNumber_cases. cbn zeta. cbn [remove_non_digits].
    change (is_digit "+"%char) with false. cbn iota.
    rewrite (remove_non_digits_id d Hd). by rewrite Hlen.
Qed.

(** ** The client of the price API *)

Lemma checkRateLimit_rateLimit now s :
  CryptoService.rateLimit (CryptoService.checkRateLimit now s) = CryptoService.rateLimit s.
Proof.
  unfold CryptoService.checkRateLimit.
  destruct (60000 <=? now - CryptoService.lastReset s); cbn;
    match goal with |- context [if ?b then _ else _] => by destruct b end.
Qed.

Lemma checkRateLimit_bounded now s :
  0 <= CryptoService.requestCount s <= CryptoService.rateLimit s ->
  0 <= CryptoService.requestCount (CryptoService.checkRateLimit now s)
    <= CryptoService.rateLimit s.
Proof.
  intros H. unfold CryptoService.checkRateLimit.
  destruct (60000 <=? now - CryptoService.lastReset s); cbn;
    match goal with
    | |- context [if (?x <=? ?y) then _ else _] => destruct (Z.leb_spec x y)
    end; cbn; lia.
Qed.

Lemma checkRateLimit_same_minute now s :
  now - CryptoService.lastReset s < 60000 ->
  CryptoService.requestCount s <= CryptoService.rateLimit s ->
  CryptoService.lastReset (CryptoService.checkRateLimit now s) = CryptoService.lastReset s /\
  CryptoService.requestCount (CryptoService.checkRateLimit now s) =
    Z.min (CryptoService.requestCount s + 1) (CryptoService.rateLimit s).
Proof.
  intros Hnow Hle. unfold CryptoService.checkRateLimit.
  destruct (Z.leb_spec 60000 (now - CryptoService.lastReset s)); [lia|].
  destruct (Z.leb_spec (CryptoService.rateLimit s) (CryptoService.requestCount s));
    cbn; lia.
Qed.

(** X4. Whenever the requests are made, the request counter of the API
    client stays between 0 and the limit of the client, and the limit itself
    is never changed by a request. *)
Theorem requestCount_within_limit times s :
  0 <= CryptoService.requestCount s <= CryptoService.rateLimit s ->
  0 <= CryptoService.requestCount (requests times s) <= CryptoService.rateLimit s /\
  CryptoService.rateLimit (requests times s) = CryptoService.rateLimit s.
Proof.
  revert s. unfold requests.
  induction times as [|t times IH]; intros s H; cbn [foldl]; [done|].
  pose proof (checkRateLimit_rateLimit t s) as Hlim.
  pose proof (checkRateLimit_bounded t s H) as Hb.
  rewrite <- Hlim in Hb. destruct (IH _ Hb) as [H1 H2].
  rewrite Hlim in H1, H2. by rewrite H2.
Qed.

Lemma requestCount_within_limit_witness :
  let s := CryptoService.mkClient 0 0 2 ∅ in
  let times := [10; 20; 30; 70000; 70001] in
  0 <= CryptoService.requestCount (requests times s) <= CryptoService.rateLimit s /\
  CryptoService.rateLimit (requests times s) = CryptoService.rateLimit s.
Proof.
  apply (requestCount_within_limit [10; 20; 30; 70000; 70001]
           (CryptoService.mkClient 0 0 2 ∅)).
  cbn. lia.
Defined.

(** X5. Inside the minute that follows the last reset, the counter counts
    the requests up to the limit and then stays there: the requests beyond
    the limit are not counted, and none of them resets the minute. *)
Theorem requestCount_saturates times s :
  CryptoService.requestCount s <= CryptoService.rateLimit s ->
  Forall (fun t => t - CryptoService.lastReset s < 60000) times ->
  CryptoService.requestCount (requests times s) =
    Z.min (CryptoService.requestCount s + Z.of_nat (length times))
          (CryptoService.rateLimit s) /\
  CryptoService.lastReset (requests times s) = CryptoService.lastReset s.
Proof.
  revert s. unfold requests.
  induction times as [|t times IH]; intros s Hle Htimes; cbn [foldl length].
  - split; [lia | done].
  - apply Forall_cons in Htimes as [Ht Htimes].
    destruct (checkRateLimit_same_minute t s Ht Hle) as [Hreset Hcount].
    pose proof (checkRateLimit_rateLimit t s) as Hlim.
    destruct (IH (CryptoService.checkRateLimit t s)) as [H1 H2].
    + rewrite Hlim, Hcount. lia.
    + by rewrite Hreset.
    + rewrite H1, H2, Hlim, Hcount, Hreset. split; [lia | done].
Qed.

Lemma requestCount_saturates_witness :
  let s := CryptoService.mkClient 0 0 2 ∅ in
  let times := [10; 20; 30; 59999] in
  CryptoService.requestCount (requests times s) =
    Z.min (CryptoService.requestCount s + Z.of_nat (length times))
          (CryptoService.rateLimit s) /\
  CryptoService.lastReset (requests times s) = CryptoService.lastReset s.
Proof.
  apply (requestCount_saturates [10; 20; 30; 59999] (CryptoService.mkClient 0 0 2 ∅)).
  - cbn. lia.
  - repeat constructor; cbn; lia.
Defined.

(** X6. A price response fetched from the API with a Redis client at hand
    is served again for one minute: until then a request for the same
    symbols and currencies returns the same response without reaching the
    API and without being counted; from the end of that minute on, the
    request reaches the API again and its outcome is the answer of the API,
    or the one error of [getCurrentPrices]. *)
Theorem getCurrentPrices_cached_one_minute api api' symbols currencies t0 t s prices s1 :
  CryptoService.cached true (CryptoService.cacheKey symbols currencies) t0 s = None ->
  CryptoService.getCurrentPrices true api symbols currencies t0 s = (Return prices, s1) ->
  (t < t0 + 60000 ->
   CryptoService.getCurrentPrices true api' symbols currencies t s1 = (Return prices, s1)) /\
  (t0 + 60000 <= t ->
   fst (CryptoService.getCurrentPrices true api' symbols currencies t s1) =
     match api' symbols currencies with
     | Return fresh => Return fresh
     | Throw _ => Throw "Failed to fetch current prices"
     end).
Proof.
  intros Hmiss Hcall. unfold CryptoService.getCurrentPrices in Hcall |- *.
  rewrite Hmiss in Hcall.
  destruct (api symbols currencies) as [p|e]; [|discriminate].
  injection Hcall as <- <-.
  unfold CryptoService.cached. cbn [CryptoService.cache]. rewrite lookup_insert_eq.
  split; intros Ht.
  - destruct (Z.ltb_spec t (t0 + 60 * 1000)); [done | lia].
  - destruct (Z.ltb_spec t (t0 + 60 * 1000)); [lia|].
    by destruct (api' symbols currencies).
Qed.

Lemma getCurrentPrices_cached_one_minute_witness :
  let s := CryptoService.mkClient 0 0 100 ∅ in
  let prices : gmap string CoinData := {[ "btc" := mkCoinData (num 45000) undefined undefined undefined ]} in
  let api := fun _ _ : list string => Return prices in
  let api' := fun _ _ : list string => @Throw (gmap string CoinData) "timeout" in
  let s1 := snd (CryptoService.getCurrentPrices true api ["btc"] ["usd"] 1000 s) in
  (30000 < 1000 + 60000 ->
   CryptoService.getCurrentPrices true api' ["btc"] ["usd"] 30000 s1 = (Return prices, s1)) /\
  (1000 + 60000 <= 30000 ->
   fst (CryptoService.getCurrentPrices true api' ["btc"] ["usd"] 30000 s1) =
     match api' ["btc"] ["usd"] with
     | Return fresh => Return fresh
     | Throw _ => Throw "Failed to fetch current prices"
     end).
Proof.
  cbv zeta.
  apply (getCurrentPrices_cached_one_minute
           (fun _ _ => Return {[ "btc" := mkCoinData (num 45000) undefined undefined undefined ]})
           (fun _ _ => Throw "timeout") ["btc"] ["usd"] 1000 30000
           (CryptoService.mkClient 0 0 100 ∅)); reflexivity.
Defined.

(** ** The status of the monitor *)

Lemma foldr_max_spec t ts :
  foldr Z.max t ts ∈ t :: ts /\ (forall x, x ∈ t :: ts -> x <= foldr Z.max t ts).
Proof.
  induction ts as [|u ts [Hin Hmax]]; cbn [foldr].
  - split; [apply elem_of_cons; by left|].
    intros x Hx. apply list_elem_of_singleton in Hx. lia.
  - split.
    + destruct (Z.max_spec u (foldr Z.max t ts)) as [[_ ->]|[_ ->]].
      * apply elem_of_cons in Hin as [Hin|Hin]; [rewrite Hin; apply elem_of_cons; by left|].
        apply elem_of_cons; right. apply elem_of_cons; by right.
      * apply elem_of_cons; right. apply elem_of_cons; by left.
    + intros x Hx. apply elem_of_cons in Hx as [->|Hx].
      * specialize (Hmax t (ltac:(apply elem_of_cons; by left))). lia.
      * apply elem_of_cons in Hx as [->|Hx]; [lia|].
        specialize (Hmax x (ltac:(apply elem_of_cons; by right))). lia.
Qed.

(** X7. The [lastPriceUpdate] reported by [getMonitoringStatus] is [null]
    exactly when the price cache is empty; otherwise it is the update instant
    of an entry of the cache, and no entry of the cache is more recent. *)
Theorem lastPriceUpdate_latest w :
  match lastPriceUpdate (getMonitoringStatus w) with
  | None => priceCache w = ∅
  | Some t =>
      (exists sym cd, priceCache w !! sym = Some cd /\ lastUpdated cd = t) /\
      (forall sym cd, priceCache w !! sym = Some cd -> lastUpdated cd <= t)
  end.
Proof.
  unfold getMonitoringStatus. cbn [lastPriceUpdate].
  destruct (lastUpdated <$> (snd <$> map_to_list (priceCache w))) as [|t ts] eqn:Hl.
  - apply fmap_nil_inv in Hl. apply fmap_nil_inv in Hl. by apply map_to_list_empty_iff.
  - destruct (foldr_max_spec t ts) as [Hin Hmax]. rewrite <- Hl in Hin, Hmax. split.
    + apply list_elem_of_fmap in Hin as (cd & -> & Hcd).
      apply list_elem_of_fmap in Hcd as ([sym cd'] & -> & Hcd).
      apply elem_of_map_to_list in Hcd. by exists sym, cd'.
    + intros sym cd Hcd. apply Hmax.
      apply list_elem_of_fmap. exists cd. split; [done|].
      apply list_elem_of_fmap. exists (sym, cd). split; [done|].
      by apply elem_of_map_to_list.
Qed.

(** ** Pausing and resuming an alert *)

Lemma pause_run now loc w a :
  docs w !! loc = Some a ->
  let a' := push_executionLog (mkLogEntry "paused" now None None)
              (mkAlert (_id a) (userId a) (symbol a) (type a) (condition a) false
                 (isTriggered a) (triggerCount a) (lastTriggered a)
                 (notifications a) (metadata a) (priceHistory a) (executionLog a)) in
  pause now loc w =
    if validate a'
    then (Return tt, set_db (insert (_id a) a') (set_docs (insert loc a') w))
    else (Throw "ValidationError: Alert validation failed", set_docs (insert loc a') w).
Proof.
  intros Ha. cbn zeta. unfold pause, update_doc, save, bind, read_doc, modify, throw.
  rewrite Ha. cbn [docs set_docs]. rewrite lookup_insert_eq.
  by destruct (validate _).
Qed.


(** The log entries of [pause] and [resume] are in the enumeration of the
    schema, and neither method touches a validated field: the new version
    of the document is valid exactly when the old one is. *)
Lemma validate_status_log a entry active triggered :
  action entry ∈ action_enum ->
  validate (push_executionLog entry
              (mkAlert (_id a) (userId a) (symbol a) (type a) (condition a) active
                 triggered (triggerCount a) (lastTriggered a)
                 (notifications a) (metadata a) (priceHistory a) (executionLog a))) =
  validate a.
Proof.
  intros Hin. unfold validate, push_executionLog. cbn.
  rewrite forallb_app. cbn.
  by rewrite (bool_decide_eq_true_2 _ Hin), !andb_true_r.
Qed.



(** The alert of the sample monitor passes the validators, so that its
    [resume] is stored. *)
Example resume_is_stored :
  let a := set_isTriggered true (btc_above 0 2) in
  validate a = true /\
  fst (resume 1000 0 (watching a "btc" (btc_at 45250))) = Return tt /\
  (isTriggered <$> db (snd (resume 1000 0 (watching a "btc" (btc_at 45250)))) !! "a1")
    = Some false.
Proof. by vm_compute. Qed.
(** ** Inactive alerts *)

Section Dormant.
Variables (loc : nat) (a0 : Alert).
Hypothesis Hinactive : isActive a0 = false.

Lemma dormant_update_other w l a' :
  l <> loc -> resetting loc a0 w -> resetting loc a0 (set_docs (insert l a') w).
Proof.
  intros Hne (a & Ha & Hcore). exists a. split; [|done].
  cbn. by rewrite lookup_insert_ne.
Qed.

Lemma dormant_update_history w l a now p source :
  resetting loc a0 w -> docs w !! l = Some a ->
  resetting loc a0 (set_docs (insert l (addPriceHistory now p source a)) w).
Proof.
  intros Hres Ha. destruct (decide (l = loc)) as [->|Hne]; [|by apply dormant_update_other].
  destruct Hres as (a' & Ha' & Hcore). rewrite Ha in Ha'. injection Ha' as <-.
  exists (addPriceHistory now p source a). split; [apply lookup_insert_eq|].
  by rewrite <- Hcore.
Qed.

Lemma dormant_update_reset w l a :
  resetting loc a0 w -> docs w !! l = Some a ->
  resetting loc a0 (set_docs (insert l (set_isTriggered false a)) w).
Proof.
  intros Hres Ha. destruct (decide (l = loc)) as [->|Hne]; [|by apply dormant_update_other].
  destruct Hres as (a' & Ha' & Hcore). rewrite Ha in Ha'. injection Ha' as <-.
  exists (set_isTriggered false a). split; [apply lookup_insert_eq|].
  by rewrite <- Hcore.
Qed.

Lemma dormant_doc_inactive w a now obs :
  resetting loc a0 w -> docs w !! loc = Some a -> shouldTrigger a now obs = false.
Proof.
  intros (a' & Ha' & Hcore) Ha. rewrite Ha in Ha'. injection Ha' as <-.
  unfold shouldTrigger.
  replace (isActive a) with false; [done|].
  rewrite <- Hinactive, <- Hcore. by destruct a.
Qed.

(** The side conditions of the invariant [resetting] for an inactive
    document, for a computation that writes document [l]: a new price entry
    or a reset of the flag, or any write when [l] is another document. *)
Ltac dormant_side :=
  lazymatch goal with
  | |- forall w, resetting _ _ w -> resetting _ _ _ => intros ? H; exact H
  | |- forall w a, resetting _ _ w -> docs w !! _ = Some a ->
                   resetting _ _ (set_docs (insert _ (addPriceHistory _ _ _ a)) w) =>
      intros ? ? H Hdoc; by apply dormant_update_history
  | |- forall w a, resetting _ _ w -> docs w !! _ = Some a ->
                   resetting _ _ (set_docs (insert _ (set_isTriggered false a)) w) =>
      intros ? ? H Hdoc; by apply dormant_update_reset
  | |- forall w a, resetting _ _ w -> docs w !! _ = Some a ->
                   resetting _ _ (set_docs _ w) =>
      intros ? ? H _; apply dormant_update_other; [assumption | exact H]
  | |- forall w a, resetting _ _ w -> docs w !! _ = Some a ->
                   resetting _ _ (set_db _ w) =>
      intros ? ? H _; exact H
  end.

Ltac dormant_auto := repeat first [ dormant_side | inv_step ].

Lemma sendAlertNotifications_dormant env now l cd :
  l <> loc ->
  hoare (resetting loc a0) (sendAlertNotifications env now l cd) (resetting loc a0).
Proof.
  intros Hne. unfold sendAlertNotifications.
  apply inv_bind; [apply hoare_read_doc | intros a].
  destruct (userId a) as [u|]; [|dormant_auto].
  apply inv_bind; [dormant_auto | intros _].
  apply inv_try_catch; [ | intros e; dormant_auto].
  unfold notify_channel.
  apply inv_bind; [ | intros _].
  { destruct (destination Email a u); dormant_auto. }
  apply inv_bind; [ | intros _].
  { destruct (destination Sms a u); dormant_auto. }
  apply inv_bind; [ | intros _].
  { destruct (destination Push a u); dormant_auto. }
  dormant_auto.
Qed.

Lemma triggerAlert_dormant env now l cd :
  l <> loc ->
  hoare (resetting loc a0) (triggerAlert env now l cd) (resetting loc a0).
Proof.
  intros Hne. unfold triggerAlert, trigger.
  apply inv_try_catch; [ | intros e; dormant_auto].
  apply inv_bind; [dormant_auto | intros _].
  apply inv_bind; [by apply sendAlertNotifications_dormant | intros _].
  dormant_auto.
Qed.

Lemma evaluate_dormant env now l sym :
  hoare (resetting loc a0) (evaluate env now l sym) (resetting loc a0).
Proof.
  unfold evaluate. apply inv_bind; [dormant_auto | intros [cd|]]; [|dormant_auto].
  apply inv_bind; [dormant_auto | intros _].
  apply hoare_read_doc_bind; [|done]. intros a.
  destruct (shouldTrigger a now cd) eqn:Hfire.
  - destruct (decide (l = loc)) as [->|Hne].
    + intros w [Hres Ha]. exfalso.
      rewrite (dormant_doc_inactive w a now cd Hres Ha) in Hfire. discriminate.
    + apply (hoare_conseq (resetting loc a0) _ (resetting loc a0));
        [by intros w [H _] | done | by apply triggerAlert_dormant].
  - apply hoare_ret. by intros w [H _].
Qed.

Lemma processAlert_dormant env now l :
  hoare (resetting loc a0) (processAlert env now l) (resetting loc a0).
Proof.
  unfold processAlert.
  apply inv_bind; [apply hoare_read_doc | intros a].
  apply inv_bind; [dormant_auto | intros [cd|]].
  - apply evaluate_dormant.
  - destruct (getCurrentPrices env [toLowerCase (symbol a)]) as [fresh|e];
      [|dormant_auto].
    apply inv_bind; [ | intros _; apply evaluate_dormant].
    destruct (fresh !! toLowerCase (symbol a)); dormant_auto.
Qed.

Lemma perform_dormant env act :
  hoare (resetting loc a0) (perform env act) (resetting loc a0).
Proof.
  destruct act as [now|now|now]; cbn [perform].
  - dormant_auto.
  - apply inv_try_catch; [ | intros e; dormant_auto].
    unfold processAlerts. apply inv_bind; [dormant_auto | intros locs].
    apply hoare_for_each. intros l.
    apply inv_try_catch; [apply processAlert_dormant | intros e; dormant_auto].
  - dormant_auto.
Qed.

Lemma run_dormant acts w : resetting loc a0 w -> resetting loc a0 (run acts w).
Proof.
  unfold run.
  apply (hoare_for_each (resetting loc a0) acts (fun act => perform (fst act) (snd act))).
  intros act. apply perform_dormant.
Qed.
End Dormant.

Lemma resetting_start loc a w : docs w !! loc = Some a -> resetting loc a w.
Proof. intros Ha. exists a. split; [done | by destruct a]. Qed.

Lemma resetting_fields b h s a1 :
  set_isTriggered b (set_priceHistory h s) = a1 ->
  isActive s = isActive a1 /\ triggerCount s = triggerCount a1 /\
  lastTriggered s = lastTriggered a1 /\ executionLog s = executionLog a1 /\
  notifications s = notifications a1 /\ condition s = condition a1.
Proof. intros <-. by destruct s. Qed.

(** X9. A document that is not active is never triggered by the monitor,
    even while it is in the index of active alerts: along every sequence of
    refresh cycles, evaluation cycles and timer callbacks it stays inactive
    and keeps its trigger count, its last trigger instant, its execution
    log, its notification flags and its condition with the current price
    written at the last trigger. *)
Theorem inactive_alert_never_fires acts w loc a :
  docs w !! loc = Some a ->
  isActive a = false ->
  exists a',
    docs (run acts w) !! loc = Some a' /\
    isActive a' = false /\
    triggerCount a' = triggerCount a /\
    lastTriggered a' = lastTriggered a /\
    executionLog a' = executionLog a /\
    notifications a' = notifications a /\
    condition a' = condition a.
Proof.
  intros Ha Hinactive.
  destruct (run_dormant loc a Hinactive acts w (resetting_start loc a w Ha))
    as (a' & Ha' & Hcore).
  destruct (resetting_fields _ _ _ _ Hcore) as (H1 & H2 & H3 & H4 & H5 & H6).
  exists a'. rewrite H1, H2, H3, H4, H5, H6. by repeat split.
Qed.

Lemma inactive_alert_never_fires_witness :
  let a := mkAlert "a1" (Some ada) "BTC" "price_above"
             (mkCondition (num 45000) undefined undefined "24h" undefined undefined)
             false false 0 None all_channels (mkMetadata "medium" 0 1 None) [] [] in
  let w := watching a "btc" (btc_at 45250) in
  let acts := [(quiet_env, AlertEvaluation 1000); (quiet_env, TimersDue 2000)] in
  exists a',
    docs (run acts w) !! 0%nat = Some a' /\
    isActive a' = false /\
    triggerCount a' = triggerCount a /\
    lastTriggered a' = lastTriggered a /\
    executionLog a' = executionLog a /\
    notifications a' = notifications a /\
    condition a' = condition a.
Proof.
  cbv zeta.
  apply inactive_alert_never_fires; reflexivity.
Defined.

(** X10. [pause] stops the document it is called on without taking it out
    of the index of active alerts.  The call rewrites the document in memory
    and leaves the index, the timers and the providers alone; it returns
    and the store takes the new version when the document passes the
    validators of the schema, which it does exactly when it did before the
    call, and it rejects with the store unwritten otherwise.  Either way,
    along every later sequence of refresh cycles, evaluation cycles and
    timer callbacks the document stays inactive, with the trigger count it
    had and a log that ends with the [paused] entry. *)
Theorem pause_stops_triggers now loc w a acts :
  docs w !! loc = Some a ->
  let w1 := snd (pause now loc w) in
  fst (pause now loc w) =
    (if validate a then Return tt
     else Throw "ValidationError: Alert validation failed") /\
  (exists a1,
     docs w1 !! loc = Some a1 /\ validate a1 = validate a /\
     db w1 = if validate a then <[_id a := a1]> (db w) else db w) /\
  activeAlerts w1 = activeAlerts w /\
  timers w1 = timers w /\
  outbox w1 = outbox w /\
  exists a',
    docs (run acts w1) !! loc = Some a' /\
    isActive a' = false /\
    triggerCount a' = triggerCount a /\
    executionLog a' = executionLog a ++ [mkLogEntry "paused" now None None].
Proof.
  intros Ha. cbn zeta. rewrite (pause_run now loc w a Ha).
  set (a1 := push_executionLog _ _).
  assert (Hvalid : validate a1 = validate a).
  { apply (validate_status_log a (mkLogEntry "paused" now None None) false
             (isTriggered a)). set_solver. }
  rewrite Hvalid.
  set (w1 := snd (if validate a then _ else _)).
  assert (Hw1 : docs w1 !! loc = Some a1 /\
                db w1 = (if validate a then <[_id a := a1]> (db w) else db w) /\
                activeAlerts w1 = activeAlerts w /\ timers w1 = timers w /\
                outbox w1 = outbox w).
  { subst w1. destruct (validate a); cbn; by rewrite lookup_insert_eq. }
  destruct Hw1 as (Ha1 & Hdb & Hidx & Hts & Hout).
  split; [by destruct (validate a)|].
  split; [by exists a1|].
  repeat (split; [done|]).
  destruct (run_dormant loc a1 eq_refl acts w1 (resetting_start loc a1 w1 Ha1))
    as (a' & Ha' & Hcore).
  destruct (resetting_fields _ _ _ _ Hcore) as (H1 & H2 & H3 & H4 & H5 & H6).
  exists a'. by rewrite H1, H2, H4.
Qed.

Lemma pause_stops_triggers_witness :
  let a := btc_above 0 1 in
  let w := watching a "btc" (btc_at 45250) in
  let acts := [(quiet_env, AlertEvaluation 2000); (quiet_env, AlertEvaluation 7000)] in
  let w1 := snd (pause 1000 0 w) in
  fst (pause 1000 0 w) =
    (if validate a then Return tt
     else Throw "ValidationError: Alert validation failed") /\
  (exists a1,
     docs w1 !! 0%nat = Some a1 /\ validate a1 = validate a /\
     db w1 = if validate a then <[_id a := a1]> (db w) else db w) /\
  activeAlerts w1 = activeAlerts w /\
  timers w1 = timers w /\
  outbox w1 = outbox w /\
  exists a',
    docs (run acts w1) !! 0%nat = Some a' /\
    isActive a' = false /\
    triggerCount a' = triggerCount a /\
    executionLog a' = executionLog a ++ [mkLogEntry "paused" 1000 None None].
Proof.
  apply (pause_stops_triggers 1000 0%nat (watching (btc_above 0 1) "btc" (btc_at 45250))
           (btc_above 0 1)
           [(quiet_env, AlertEvaluation 2000); (quiet_env, AlertEvaluation 7000)]).
  reflexivity.
Defined.

(** The alert of the sample monitor passes the validators, so that its
    [pause] is stored. *)
Example pause_is_stored :
  validate (btc_above 0 1) = true /\
  fst (pause 1000 0 (watching (btc_above 0 1) "btc" (btc_at 45250))) = Return tt /\
  (isActive <$> db (snd (pause 1000 0 (watching (btc_above 0 1) "btc" (btc_at 45250))))
                  !! "a1") = Some false.
Proof. by vm_compute. Qed.
(** ** What the monitor never changes *)

Lemma same_alert_refl a : same_alert a a.
Proof. by repeat split. Qed.

Lemma same_alert_trans a b c : same_alert a b -> same_alert b c -> same_alert a c.
Proof.
  intros (H1 & H2 & H3 & H4) (H1' & H2' & H3' & H4').
  split; [congruence|]. split; [congruence|]. split; [|congruence].
  by apply (same_rule_trans c b a).
Qed.

Lemma same_alert_trigger now cd a : same_alert a (trigger_fields now cd a).
Proof.
  unfold trigger_fields. destruct (truthy (price cd)); by repeat split.
Qed.

Lemma same_alert_sent c now a : same_alert a (mark_sent c now a).
Proof. destruct c; by repeat split. Qed.

(** X11. The monitor never changes what an alert is about.  Along every
    sequence of refresh cycles, evaluation cycles and timer callbacks each
    document keeps its id, its owner, its symbol, its type, its thresholds
    and timeframe, its activity flag and its metadata (priority, repeat
    interval, trigger budget and expiry); so the row of the kind table that
    decides it stays the same. *)
Theorem monitor_keeps_the_rule acts w loc a :
  docs w !! loc = Some a ->
  exists a',
    docs (run acts w) !! loc = Some a' /\
    same_alert a a' /\
    forall obs, kind_table a' obs <-> kind_table a obs.
Proof.
  intros Ha.
  destruct (run_related same_alert same_alert_refl same_alert_trans
              (fun now p source a => same_alert_refl _)
              same_alert_sent
              (fun a => same_alert_refl _)
              (fun now cd a _ => same_alert_trigger now cd a)
              acts w loc a Ha) as (a' & Ha' & Hsame).
  exists a'. split; [done|]. split; [done|].
  intros obs. apply kind_table_same_rule. by destruct Hsame as (_ & _ & H & _).
Qed.

Lemma monitor_keeps_the_rule_witness :
  let a := btc_above 0 1 in
  let w := watching a "btc" (btc_at 45250) in
  let acts := [(quiet_env, AlertEvaluation 1000); (quiet_env, TimersDue 2000)] in
  exists a',
    docs (run acts w) !! 0%nat = Some a' /\
    same_alert a a' /\
    forall obs, kind_table a' obs <-> kind_table a obs.
Proof.
  apply (monitor_keeps_the_rule
           [(quiet_env, AlertEvaluation 1000); (quiet_env, TimersDue 2000)]
           (watching (btc_above 0 1) "btc" (btc_at 45250)) 0%nat (btc_above 0 1)).
  reflexivity.
Defined.

Lemma logged_triggers_refl a : logged_triggers a a.
Proof. exists []. rewrite app_nil_r. repeat split; [constructor | cbn; lia]. Qed.

Lemma logged_triggers_trans a b c :
  logged_triggers a b -> logged_triggers b c -> logged_triggers a c.
Proof.
  intros (l1 & Hl1 & Hf1 & Hc1) (l2 & Hl2 & Hf2 & Hc2). exists (l1 ++ l2).
  split; [by rewrite Hl2, Hl1, app_assoc|].
  split; [by apply Forall_app|].
  rewrite length_app. lia.
Qed.

Lemma logged_triggers_trigger now cd a : logged_triggers a (trigger_fields now cd a).
Proof.
  destruct (trigger_fields_status now cd a) as (_ & Hcount & _ & Hlog).
  eexists. split; [exact Hlog|]. split; [by repeat constructor|].
  rewrite Hcount. cbn. lia.
Qed.

(** X12. The trigger count and the execution log move together.  Along
    every sequence of refresh cycles, evaluation cycles and timer callbacks
    the log of a document only grows, the entries added are [triggered]
    entries, and there is one of them for each unit by which the trigger
    count has gone up; the count never goes down. *)
Theorem triggers_are_logged acts w loc a :
  docs w !! loc = Some a ->
  exists a' entries,
    docs (run acts w) !! loc = Some a' /\
    executionLog a' = executionLog a ++ entries /\
    Forall (fun e => action e = "triggered") entries /\
    triggerCount a' = triggerCount a + Z.of_nat (length entries).
Proof.
  intros Ha.
  destruct (run_related logged_triggers logged_triggers_refl logged_triggers_trans
              (fun now p source a => logged_triggers_refl _)
              (fun c now a => logged_triggers_refl _)
              (fun a => logged_triggers_refl _)
              (fun now cd a _ => logged_triggers_trigger now cd a)
              acts w loc a Ha) as (a' & Ha' & entries & H).
  by exists a', entries.
Qed.

Lemma triggers_are_logged_witness :
  let a := btc_above 0 1 in
  let w := watching a "btc" (btc_at 45250) in
  let acts := [(quiet_env, AlertEvaluation 1000); (quiet_env, AlertEvaluation 6000)] in
  exists a' entries,
    docs (run acts w) !! 0%nat = Some a' /\
    executionLog a' = executionLog a ++ entries /\
    Forall (fun e => action e = "triggered") entries /\
    triggerCount a' = triggerCount a + Z.of_nat (length entries).
Proof.
  apply (triggers_are_logged
           [(quiet_env, AlertEvaluation 1000); (quiet_env, AlertEvaluation 6000)]
           (watching (btc_above 0 1) "btc" (btc_at 45250)) 0%nat (btc_above 0 1)).
  reflexivity.
Defined.

Lemma history_bounded_refl a : history_bounded a a.
Proof. unfold history_bounded. lia. Qed.

Lemma history_bounded_trans a b c :
  history_bounded a b -> history_bounded b c -> history_bounded a c.
Proof. unfold history_bounded. lia. Qed.

Lemma history_bounded_add now p source a :
  history_bounded a (addPriceHistory now p source a).
Proof.
  unfold history_bounded, addPriceHistory. cbn [priceHistory].
  destruct (Nat.ltb_spec 100 (length (priceHistory a ++ [mkPriceEntry p now source]))) as [H|H].
  - rewrite slice_last_length. lia.
  - lia.
Qed.

Lemma history_bounded_trigger now cd a : history_bounded a (trigger_fields now cd a).
Proof.
  unfold history_bounded, trigger_fields. destruct (truthy (price cd)); cbn; lia.
Qed.

(** X13. The bound of the price history holds through the whole monitor,
    not only through [addPriceHistory]: along every sequence of refresh
    cycles, evaluation cycles and timer callbacks, a document whose history
    has at most 100 entries never has more than 100. *)
Theorem monitor_bounds_history acts w loc a :
  docs w !! loc = Some a ->
  (length (priceHistory a) <= 100)%nat ->
  exists a',
    docs (run acts w) !! loc = Some a' /\
    (length (priceHistory a') <= 100)%nat.
Proof.
  intros Ha Hlen.
  destruct (run_related history_bounded history_bounded_refl history_bounded_trans
              history_bounded_add
              (fun c now a => history_bounded_refl _)
              (fun a => history_bounded_refl _)
              (fun now cd a _ => history_bounded_trigger now cd a)
              acts w loc a Ha) as (a' & Ha' & H).
  exists a'. split; [done|]. unfold history_bounded in H. lia.
Qed.

Lemma monitor_bounds_history_witness :
  let a := btc_above 0 1 in
  let w := watching a "btc" (btc_at 44000) in
  let acts := [(quiet_env, AlertEvaluation 1000); (quiet_env, AlertEvaluation 6000)] in
  exists a',
    docs (run acts w) !! 0%nat = Some a' /\
    (length (priceHistory a') <= 100)%nat.
Proof.
  apply (monitor_bounds_history
           [(quiet_env, AlertEvaluation 1000); (quiet_env, AlertEvaluation 6000)]
           (watching (btc_above 0 1) "btc" (btc_at 44000)) 0%nat (btc_above 0 1)).
  - reflexivity.
  - cbn. lia.
Defined.

(** ** Deleting an alert *)


(** ** A price-refresh cycle that succeeds *)

Lemma cache_entry_numbers now d :
  price (cache_entry now d) = usd d /\
  lastUpdated (cache_entry now d) = now /\
  is_number (change24h (cache_entry now d)) /\
  is_number (volume (cache_entry now d)) /\
  is_number (marketCap (cache_entry now d)).
Proof.
  assert (Hor : forall v, is_number (js_or v (num 0))).
  { intros [| | |q]; unfold js_or; [by exists 0%Q | by exists 0%Q | by exists 0%Q |].
    destruct (truthy (num q)); [by exists q | by exists 0%Q]. }
  unfold cache_entry. cbn. repeat split; apply Hor.
Qed.

(** X15. When the batched request of a price-refresh cycle succeeds, the
    cycle returns normally and changes the price cache only: every symbol of
    the response gets a new entry stamped with the instant of the cycle,
    whose price is the price of the response as it is and whose 24 hour
    change, volume and market capitalisation are numbers (0 when the response
    lacks them); the entries of the other symbols stay. *)
Theorem updatePrices_refreshes env now w fresh :
  monitored_symbols w <> [] ->
  getCurrentPrices env (monitored_symbols w) = Return fresh ->
  let w' := snd (updatePrices env now w) in
  fst (updatePrices env now w) = Return tt /\
  w' = set_priceCache (fun _ => priceCache w') w /\
  (forall sym d, fresh !! sym = Some d ->
     exists cd, priceCache w' !! sym = Some cd /\
       price cd = usd d /\ lastUpdated cd = now /\
       is_number (change24h cd) /\ is_number (volume cd) /\ is_number (marketCap cd)) /\
  (forall sym, fresh !! sym = None -> priceCache w' !! sym = priceCache w !! sym).
Proof.
  intros Hsyms Hfresh. cbn zeta.
  pose proof (monitored_symbols_nonempty w Hsyms) as Hidx.
  unfold updatePrices, bind, gets, try_catch, lift, modify.
  destruct (activeAlerts w) as [|x idx] eqn:Hw; [done|]. cbn [length Nat.eqb].
  destruct (monitored_symbols w) as [|s syms] eqn:Hs; [done|]. cbn [length Nat.eqb].
  rewrite Hfresh. cbn [fst snd priceCache set_priceCache].
  split; [done|]. split; [by destruct w|]. split.
  - intros sym d Hd. exists (cache_entry now d). split; [|apply cache_entry_numbers].
    apply lookup_union_Some_l. by rewrite lookup_fmap, Hd.
  - intros sym Hnone. apply lookup_union_r. by rewrite lookup_fmap, Hnone.
Qed.

Lemma updatePrices_refreshes_witness :
  let env := mkEnv (fun _ => Return {[ "btc" := mkCoinData (num 45250) undefined NaN (num 7) ]})
                   true true true true true in
  let w := watching (btc_above 0 1) "btc" (btc_at 44000) in
  let fresh : gmap string CoinData :=
    {[ "btc" := mkCoinData (num 45250) undefined NaN (num 7) ]} in
  let w' := snd (updatePrices env 1000 w) in
  fst (updatePrices env 1000 w) = Return tt /\
  w' = set_priceCache (fun _ => priceCache w') w /\
  (forall sym d, fresh !! sym = Some d ->
     exists cd, priceCache w' !! sym = Some cd /\
       price cd = usd d /\ lastUpdated cd = 1000 /\
       is_number (change24h cd) /\ is_number (volume cd) /\ is_number (marketCap cd)) /\
  (forall sym, fresh !! sym = None -> priceCache w' !! sym = priceCache w !! sym).
Proof.
  cbv zeta.
  apply (updatePrices_refreshes
           (mkEnv (fun _ => Return {[ "btc" := mkCoinData (num 45250) undefined NaN (num 7) ]})
                  true true true true true)
           1000 (watching (btc_above 0 1) "btc" (btc_at 44000))
           {[ "btc" := mkCoinData (num 45250) undefined NaN (num 7) ]}).
  - by vm_compute.
  - reflexivity.
Defined.

(** ** Evaluating one alert *)

(** X16. An alert whose symbol has no cached price asks the price source
    for it.  When the source fails, the alert is skipped: the error goes to
    the log and nothing else changes.  When the source answers without the
    symbol, the alert is skipped silently.  When it answers with the symbol,
    the entry is cached and the alert is evaluated against it. *)
Theorem processAlert_without_cached_price env now loc w a :
  docs w !! loc = Some a ->
  priceCache w !! toLowerCase (symbol a) = None ->
  let sym := toLowerCase (symbol a) in
  match getCurrentPrices env [sym] with
  | Throw e =>
      processAlert env now loc w =
        (Return tt, set_console (fun c => c ++ [String.append "Error fetching price: " e]) w)
  | Return fresh =>
      match fresh !! sym with
      | None => processAlert env now loc w = (Return tt, w)
      | Some d =>
          processAlert env now loc w =
            evaluate env now loc sym (set_priceCache (insert sym (cache_entry now d)) w) /\
          priceCache (snd (processAlert env now loc w)) !! sym = Some (cache_entry now d)
      end
  end.
Proof.
  intros Ha Hmiss. cbn zeta. unfold processAlert.
  rewrite (bind_read_doc loc a) by done. rewrite bind_gets, Hmiss.
  destruct (getCurrentPrices env [toLowerCase (symbol a)]) as [fresh|e]; [|done].
  destruct (fresh !! toLowerCase (symbol a)) as [d|] eqn:Hd.
  - rewrite bind_modify. split; [done|].
    set (w1 := set_priceCache _ w).
    assert (Hinv : hoare (fun w => priceCache w !! toLowerCase (symbol a) = Some (cache_entry now d))
                         (evaluate env now loc (toLowerCase (symbol a)))
                         (fun w => priceCache w !! toLowerCase (symbol a) = Some (cache_entry now d))).
    { unfold evaluate, triggerAlert, trigger.
      repeat first
        [ inv_step
        | lazymatch goal with
          | |- forall w, _ -> _ => by intros
          | |- forall w a, _ -> _ -> _ => by intros
          end ]. }
    apply Hinv. subst w1. cbn. apply lookup_insert_eq.
  - unfold bind, ret, evaluate, gets. cbn. by rewrite Hmiss.
Qed.

Lemma processAlert_without_cached_price_witness :
  let a := btc_above 0 1 in
  let w := set_priceCache (fun _ => ∅) (watching a "btc" (btc_at 44000)) in
  let sym := toLowerCase (symbol a) in
  match getCurrentPrices quiet_env [sym] with
  | Throw e =>
      processAlert quiet_env 1000 0 w =
        (Return tt, set_console (fun c => c ++ [String.append "Error fetching price: " e]) w)
  | Return fresh =>
      match fresh !! sym with
      | None => processAlert quiet_env 1000 0 w = (Return tt, w)
      | Some d =>
          processAlert quiet_env 1000 0 w =
            evaluate quiet_env 1000 0 sym (set_priceCache (insert sym (cache_entry 1000 d)) w) /\
          priceCache (snd (processAlert quiet_env 1000 0 w)) !! sym = Some (cache_entry 1000 d)
      end
  end.
Proof.
  apply (processAlert_without_cached_price quiet_env 1000 0%nat
           (set_priceCache (fun _ => ∅) (watching (btc_above 0 1) "btc" (btc_at 44000)))
           (btc_above 0 1)); reflexivity.
Defined.

(** A new price entry leaves the validated fields of a valid document
    alone: the new version is valid exactly when the observed price casts to
    a Number. *)
Lemma validate_addPriceHistory now p source a :
  validate a = true ->
  validate (addPriceHistory now p source a) = castable p.
Proof.
  unfold validate, addPriceHistory.
  cbn [symbol type condition metadata priceHistory executionLog].
  set (h := priceHistory a ++ [mkPriceEntry p now source]).
  intros Hvalid. repeat (apply andb_prop in Hvalid as [Hvalid ?]).
  assert (Hold : forallb (fun e => castable (entry_price e)) (priceHistory a) = true)
    by done.
  repeat match goal with H : _ = true |- _ => rewrite H; clear H end.
  rewrite andb_true_r. cbn [andb].
  assert (Hh : forallb (fun e => castable (entry_price e)) h = castable p).
  { subst h. rewrite forallb_app. cbn. by rewrite Hold, andb_true_r. }
  destruct (100 <? length h)%nat eqn:Hlen; [|done].
  unfold slice_last.
  destruct (castable p) eqn:Hp.
  - rewrite <- (take_drop (length h - 100) h), forallb_app in Hh.
    by apply andb_prop in Hh as [_ Hh].
  - subst h. apply Nat.ltb_lt in Hlen. rewrite length_app in Hlen. cbn in Hlen.
    rewrite length_app. cbn [length].
    rewrite drop_app_le by lia.
    rewrite forallb_app. cbn. by rewrite Hp, andb_false_r.
Qed.

(** X17. An alert that does not fire on the cached observation of its
    symbol still has the observation recorded: the evaluation of the alert
    returns normally and appends the observed price to the price history of
    the document in memory, no other field of the document changing.  When
    the new version passes the validators of the schema the store takes it
    and nothing else changes: no notification, no timer, no change of the
    index.  When it does not, the store is not written and the rejection of
    the save goes to the log.  A valid document stays valid unless the
    observed price does not cast to a Number. *)
Theorem processAlert_records_quietly env now loc w a obs :
  docs w !! loc = Some a ->
  priceCache w !! toLowerCase (symbol a) = Some obs ->
  shouldTrigger a now obs = false ->
  let a' := addPriceHistory now (price obs) "coingecko" a in
  processAlert env now loc w =
    (Return tt,
     if validate a'
     then set_db (insert (_id a) a') (set_docs (insert loc a') w)
     else set_console
            (fun c => c ++ [String.append "Error updating price history: "
                              "ValidationError: Alert validation failed"])
            (set_docs (insert loc a') w)) /\
  (validate a = true -> validate a' = castable (price obs)) /\
  set_priceHistory (priceHistory a) a' = a /\
  exists older,
    priceHistory a ++ [mkPriceEntry (price obs) now "coingecko"] = older ++ priceHistory a'.
Proof.
  intros Ha Hobs Hquiet. cbn zeta. split; [|split; [|split]].
  - destruct (processAlert_cached env now loc w a obs Ha Hobs) as (w1 & Hrun & _ & ->).
    rewrite Hquiet. rewrite (updateAlertPriceHistory_run now loc (price obs) w a Ha) in Hrun.
    by injection Hrun as <-.
  - apply validate_addPriceHistory.
  - by destruct a.
  - unfold addPriceHistory. cbn [priceHistory].
    match goal with |- context [if ?b then _ else _] => destruct b end.
    + unfold slice_last. eexists. symmetry. apply take_drop.
    + by exists [].
Qed.

Lemma processAlert_records_quietly_witness :
  let a := btc_above 0 1 in
  let obs := btc_at 44000 in
  let w := watching a "btc" obs in
  let a' := addPriceHistory 1000 (price obs) "coingecko" a in
  processAlert quiet_env 1000 0 w =
    (Return tt,
     if validate a'
     then set_db (insert (_id a) a') (set_docs (insert 0%nat a') w)
     else set_console
            (fun c => c ++ [String.append "Error updating price history: "
                              "ValidationError: Alert validation failed"])
            (set_docs (insert 0%nat a') w)) /\
  (validate a = true -> validate a' = castable (price obs)) /\
  set_priceHistory (priceHistory a) a' = a /\
  exists older,
    priceHistory a ++ [mkPriceEntry (price obs) 1000 "coingecko"] = older ++ priceHistory a'.
Proof.
  apply (processAlert_records_quietly quiet_env 1000 0%nat
           (watching (btc_above 0 1) "btc" (btc_at 44000)) (btc_above 0 1) (btc_at 44000));
    reflexivity.
Defined.

(** An observation whose price is not a number is recorded in memory only:
    the store keeps the old version and the log gets the rejection. *)
Example unreadable_price_is_not_stored :
  let a := btc_above 0 1 in
  let obs := mkPriceData NaN (num 0) (num 0) (num 0) 0 in
  let w' := snd (processAlert quiet_env 1000 0 (watching a "btc" obs)) in
  (priceHistory <$> docs w' !! 0%nat) = Some [mkPriceEntry NaN 1000 "coingecko"] /\
  db w' !! "a1" = Some a /\
  console w' = ["Error updating price history: ValidationError: Alert validation failed"].
Proof. by vm_compute. Qed.
(** ** Loading the index of active alerts *)






(** ** The rate limit of a channel *)

Lemma accepted_count_app c to o o' :
  accepted_count c to (o ++ o') = (accepted_count c to o + accepted_count c to o')%nat.
Proof. unfold accepted_count. by rewrite filter_app, length_app. Qed.

Lemma accepted_count_one c to b :
  accepted_count c to [mkDelivery c to b] = if b then 1%nat else 0%nat.
Proof.
  unfold accepted_count. destruct b.
  - by rewrite filter_cons_True.
  - rewrite filter_cons_False; [done|]. by intros (_ & _ & [=]).
Qed.

Lemma rateLimits_facts c :
  0 < limit (rateLimits c) /\ 0 <= window (rateLimits c) /\
  window (rateLimits c) / 1000 * 1000 = window (rateLimits c).
Proof. by destruct c. Qed.

Lemma checkRateLimit_counting env c to now t0 sent0 w :
  redisAvailable env = true ->
  t0 <= now < t0 + window (rateLimits c) ->
  counting c to t0 sent0 w ->
  exists ok w1,
    checkRateLimit env c to now w = (Return ok, w1) /\
    rateCache w1 = rateCache w /\ outbox w1 = outbox w /\
    (ok = true ->
     match rateCache w !! rate_key c to with
     | Some e => count e < limit (rateLimits c)
     | None => True
     end).
Proof.
  intros Hredis Hnow Hinv. destruct (rateLimits_facts c) as (Hlim & Hwin & _).
  unfold counting in Hinv.
  unfold checkRateLimit, getCache. rewrite Hredis. rewrite bind_gets.
  destruct (rateCache w !! rate_key c to) as [e|] eqn:He.
  - destruct Hinv as (Hstart & Hexp & Hcount & _).
    destruct (Z.ltb_spec now (expiry e)); [|lia].
    destruct (Z.ltb_spec (window (rateLimits c)) (now - windowStart e)); [lia|].
    destruct (Z.leb_spec (limit (rateLimits c)) (count e)).
    + eexists false, _. split; [reflexivity|]. by repeat split.
    + eexists true, _. split; [reflexivity|]. by repeat split.
  - destruct (Z.ltb_spec (window (rateLimits c)) (now - now)); [lia|].
    destruct (Z.leb_spec (limit (rateLimits c)) 0); [lia|].
    eexists true, _. split; [reflexivity|]. by repeat split.
Qed.

Lemma hand_over_counting env c to b now t0 sent0 w :
  redisAvailable env = true ->
  t0 <= now < t0 + window (rateLimits c) ->
  counting c to t0 sent0 w ->
  match rateCache w !! rate_key c to with
  | Some e => count e < limit (rateLimits c)
  | None => True
  end ->
  counting c to t0 sent0 (snd (hand_over env c (address c to) to b now w)).
Proof.
  intros Hredis Hnow Hinv Hroom. destruct (rateLimits_facts c) as (Hlim & Hwin & Hdiv).
  unfold counting in *.
  unfold hand_over, updateRateLimit, getCache, setCache. rewrite Hredis.
  rewrite bind_modify. destruct b.
  - unfold bind, gets, modify, ret. cbn [fst snd rateCache set_rateCache set_outbox outbox].
    rewrite lookup_insert_eq, Hdiv. cbn [count windowStart expiry].
    rewrite accepted_count_app, accepted_count_one.
    destruct (rateCache w !! rate_key c to) as [e|] eqn:He.
    + destruct Hinv as (Hstart & Hexp & Hcount & Hacc).
      destruct (Z.ltb_spec now (expiry e)); [|lia]. lia.
    + lia.
  - unfold bind, console_log, modify, ret.
    cbn [fst snd rateCache set_rateCache set_outbox set_console outbox].
    rewrite accepted_count_app, accepted_count_one.
    destruct (rateCache w !! rate_key c to) as [e|]; [|lia].
    destruct Hinv as (Hstart & Hexp & Hcount & Hacc). repeat split; lia.
Qed.

Lemma counting_frame c to t0 sent0 w w' :
  rateCache w' = rateCache w -> outbox w' = outbox w ->
  counting c to t0 sent0 w -> counting c to t0 sent0 w'.
Proof. intros Hr Ho. unfold counting. by rewrite Hr, Ho. Qed.

Lemma send_counting template env c to now t0 sent0 w :
  redisAvailable env = true ->
  t0 <= now < t0 + window (rateLimits c) ->
  counting c to t0 sent0 w ->
  counting c to t0 sent0 (snd (send_with template env c to now w)).
Proof.
  intros Hredis Hnow Hinv.
  destruct (checkRateLimit_counting env c to now t0 sent0 w Hredis Hnow Hinv)
    as (ok & w1 & Hcheck & Hr & Ho & Hroom).
  assert (Hinv1 : counting c to t0 sent0 w1) by by apply (counting_frame c to t0 sent0 w).
  assert (Hover : forall b, ok = true ->
            counting c to t0 sent0 (snd (hand_over env c (address c to) to b now w1))).
  { intros b Hok. apply hand_over_counting; try done. rewrite Hr. by apply Hroom. }
  destruct c; cbn [send_with]; unfold sendEmail, sendSMS, sendPushNotification;
    repeat match goal with
           | |- context [emailEnabled env] => destruct (emailEnabled env)
           | |- context [smsEnabled env] => destruct (smsEnabled env)
           end;
    cbn [negb]; try done;
    rewrite (bind_returned _ _ _ ok w1 Hcheck);
    destruct ok; cbn [negb]; try done;
    try (destruct (match template with Some t => template_html t | None => Return tt end);
         [|done]);
    by apply Hover.
Qed.

Lemma send_many_counting template c to t0 sent0 calls :
  Forall (fun call => redisAvailable (fst call) = true /\
                      t0 <= snd call < t0 + window (rateLimits c)) calls ->
  forall w, counting c to t0 sent0 w ->
            counting c to t0 sent0 (send_many template c to calls w).
Proof.
  induction 1 as [|[env now] calls [Hredis Hnow] _ IH]; intros w Hinv; [done|].
  cbn [send_many]. apply IH. by apply send_counting.
Qed.

(** X19. With the Redis client connected, the rate limit of a channel holds
    for every destination: among calls of a send function for one
    destination that fall inside one window of an hour, starting without a
    counter and made one after the other, the counter update of a call
    being finished before the next call, the providers accept at most the
    limit of the channel: 100 e-mails, 20 SMS, 200 push notifications,
    whatever template the e-mails name.  The provider of SMS is given the
    number in its international format. *)
Theorem accepted_within_rate_limit template c to calls t0 w :
  rateCache w !! rate_key c to = None ->
  Forall (fun call => redisAvailable (fst call) = true /\
                      t0 <= snd call < t0 + window (rateLimits c)) calls ->
  (accepted_count c (address c to) (outbox (send_many template c to calls w))
   <= accepted_count c (address c to) (outbox w) + Z.to_nat (limit (rateLimits c)))%nat.
Proof.
  intros Hnone Hcalls.
  assert (Hinv : counting c to t0 (accepted_count c (address c to) (outbox w)) w).
  { unfold counting. by rewrite Hnone. }
  pose proof (send_many_counting template c to t0 _ calls Hcalls w Hinv) as Hend.
  unfold counting in Hend.
  destruct (rateCache (send_many template c to calls w) !! rate_key c to) as [e|]; lia.
Qed.

Lemma accepted_within_rate_limit_witness :
  let calls := [(quiet_env, 1000); (quiet_env, 2000); (quiet_env, 3000)] in
  let w := watching (btc_above 0 1) "btc" (btc_at 45250) in
  (accepted_count Sms (address Sms "555-010-0100")
     (outbox (send_many None Sms "555-010-0100" calls w))
   <= accepted_count Sms (address Sms "555-010-0100") (outbox w)
      + Z.to_nat (limit (rateLimits Sms)))%nat.
Proof.
  apply (accepted_within_rate_limit None Sms "555-010-0100"
           [(quiet_env, 1000); (quiet_env, 2000); (quiet_env, 3000)] 0
           (watching (btc_above 0 1) "btc" (btc_at 45250))).
  - reflexivity.
  - repeat constructor; cbn; lia.
Defined.

(** Three SMS for a number written with dashes are handed to the provider
    under the formatted number and counted under the number as written. *)
Example sms_counted_as_written :
  let w := send_many None Sms "555-010-0100"
             [(quiet_env, 1000); (quiet_env, 2000); (quiet_env, 3000)]
             (watching (btc_above 0 1) "btc" (btc_at 45250)) in
  (recipient <$> outbox w) = ["+15550100100"; "+15550100100"; "+15550100100"] /\
  (count <$> rateCache w !! rate_key Sms "555-010-0100") = Some 3.
Proof. by vm_compute. Qed.

(** X20. Without a Redis client there is no rate limit at all: every call
    of a send function whose provider is configured, and whose template can
    be generated when it is an e-mail, hands its message over, however many
    calls there are and whenever they are made.  An e-mail that names the
    template [price_alert] or [portfolio_update] is never handed over: the
    generator of the template throws, and the call resolves to a failure. *)
Theorem no_redis_no_rate_limit template c to calls w :
  Forall (fun call => redisAvailable (fst call) = false /\
                      configured (fst call) c = true) calls ->
  outbox (send_many template c to calls w) =
    outbox w ++
    (if renders c template
     then (fun call => mkDelivery c (address c to) (accepted (fst call) c)) <$> calls
     else []).
Proof.
  intros Hcalls. revert w.
  induction Hcalls as [|[env now] calls [Hredis Hconf] _ IH]; intros w.
  - cbn. destruct (renders c template); by rewrite app_nil_r.
  - cbn [send_many fmap list_fmap fst snd] in *. rewrite IH.
    destruct (send_with_spec template env c to now w) as (_ & _ & Hsend).
    unfold rate_limited in Hsend. rewrite Hredis, Hconf in Hsend. cbn in Hsend.
    destruct (renders c template).
    + destruct Hsend as [_ ->]. by rewrite <- app_assoc.
    + destruct Hsend as [_ ->]. done.
Qed.

Lemma no_redis_no_rate_limit_witness :
  let env := mkEnv (fun _ => Throw "Failed to fetch current prices") false true true true true in
  let calls := [(env, 1000); (env, 1001); (env, 1002)] in
  let w := watching (btc_above 0 1) "btc" (btc_at 45250) in
  outbox (send_many (Some welcome) Email "ada@example.com" calls w) =
    outbox w ++
    (if renders Email (Some welcome)
     then (fun call => mkDelivery Email (address Email "ada@example.com")
                         (accepted (fst call) Email)) <$> calls
     else []).
Proof.
  cbv zeta.
  apply (no_redis_no_rate_limit (Some welcome) Email "ada@example.com"
           [(mkEnv (fun _ => Throw "Failed to fetch current prices") false true true true true, 1000);
            (mkEnv (fun _ => Throw "Failed to fetch current prices") false true true true true, 1001);
            (mkEnv (fun _ => Throw "Failed to fetch current prices") false true true true true, 1002)]
           (watching (btc_above 0 1) "btc" (btc_at 45250))).
  repeat constructor.
Defined.

(** The e-mails of the monitor name the template [price_alert]: none is
    handed over, with or without a Redis client. *)
Example price_alert_emails_are_not_handed_over :
  let env := mkEnv (fun _ => Throw "Failed to fetch current prices") false true true true true in
  renders Email (Some price_alert) = false /\
  outbox (send_many (Some price_alert) Email "ada@example.com"
            [(env, 1000); (env, 1001)] (watching (btc_above 0 1) "btc" (btc_at 45250))) = [].
Proof. by vm_compute. Qed.
(** ** The sent flags of a triggered alert *)





